(** * SmartTrafficManager: history buffer, congestion estimator, timing allocator

    A shallow embedding of the class [SmartTrafficManager] of
    [TrafficManagement.py] and the properties of its four methods.

    Numbers.  The program computes on NumPy [float64] arrays.  Here every
    array element is an exact rational ([Q]); results are compared with
    [==] ([Qeq]), since a rational has several representations.  Rounding,
    overflow, infinities and NaN are therefore outside this development.

    Effects.  Every method receives [self] and may assign to its fields or
    raise.  A method is a function from the manager state to the state it
    leaves behind and either a value or the exception raised; the state left
    behind by a raising method is the state at the point of the raise. *)

From Stdlib Require Import QArith ZArith List Bool Lia Lqa Psatz.
From Stdlib Require Import Qminmax Qabs.
Import ListNotations.

Local Open Scope Q_scope.

(** ** Exceptions and results *)

Inductive exn : Type :=
| ValueError
| IndexError
| ZeroDivisionError
| LinAlgError.

Inductive result (A : Type) : Type :=
| Ok (a : A)
| Raise (e : exn).

Arguments Ok {A} a.
Arguments Raise {A} e.

Definition rbind {A B : Type} (r : result A) (k : A -> result B) : result B :=
  match r with
  | Ok a => k a
  | Raise e => Raise e
  end.

Declare Scope result_scope.
Delimit Scope result_scope with result.
Notation "x <-- r ;; k" := (rbind r (fun x => k))
  (at level 61, r at next level, right associativity) : result_scope.

(** ** The Python and NumPy operations the class uses *)

(** [a / b] on Python numbers: true division, [ZeroDivisionError] on a zero
    divisor. *)
Definition py_div (a : Q) (b : Z) : result Q :=
  if (b =? 0)%Z then Raise ZeroDivisionError else Ok (a / inject_Z b).

(** [max(a, b)] of Python: [b] when [b > a], otherwise [a]. *)
Definition py_max (a b : Q) : Q :=
  if Qle_bool b a then a else b.

(** [range(n)]: empty for a non-positive [n]. *)
Definition py_range (n : Z) : list nat := seq 0 (Z.to_nat n).

Module np.

(** [np.full(n, v)]: negative dimensions are refused. *)
Definition full (n : Z) (v : Q) : result (list Q) :=
  if (n <? 0)%Z then Raise ValueError else Ok (repeat v (Z.to_nat n)).

(** [np.zeros(n)] and [np.ones(n)]. *)
Definition zeros (n : Z) : result (list Q) := full n 0.
Definition ones (n : Z) : result (list Q) := full n 1.

(** [np.zeros((r, c))]: a matrix is the list of its rows. *)
Definition zeros2 (r c : Z) : result (list (list Q)) :=
  if ((r <? 0) || (c <? 0))%Z then Raise ValueError
  else Ok (repeat (repeat 0 (Z.to_nat c)) (Z.to_nat r)).

(** [np.arange(n)]: [0, 1, ..., n-1]. *)
Definition arange (n : Z) : list Q :=
  map (fun t => inject_Z (Z.of_nat t)) (seq 0 (Z.to_nat n)).

(** [np.vstack([a, b]).T] for two vectors: the rows [(a_i, b_i)]; the two
    vectors must have one length. *)
Definition vstack_T (a b : list Q) : result (list (Q * Q)) :=
  if (length a =? length b)%nat then Ok (combine a b) else Raise ValueError.

(** [v.sum()]. *)
Definition sum (v : list Q) : Q := fold_right Qplus 0 v.

(** [beta.dot(x)] for two vectors of length two. *)
Definition dot (a b : Q * Q) : Q := fst a * fst b + snd a * snd b.

(** [m[:, j]]: column [j] of the matrix, [IndexError] when a row has no
    such entry. *)
Fixpoint column (m : list (list Q)) (j : nat) : result (list Q) :=
  match m with
  | [] => Ok []
  | row :: rest =>
      match nth_error row j with
      | Some x =>
          match column rest j with
          | Ok c => Ok (x :: c)
          | Raise e => Raise e
          end
      | None => Raise IndexError
      end
  end.

(** [v[i] = x] on a vector, [IndexError] out of range. *)
Fixpoint setitem (v : list Q) (i : nat) (x : Q) : result (list Q) :=
  match v, i with
  | [], _ => Raise IndexError
  | _ :: t, O => Ok (x :: t)
  | h :: t, S i' =>
      match setitem t i' x with
      | Ok t' => Ok (h :: t')
      | Raise e => Raise e
      end
  end.

(** [m[:-1] = src]: the rows but the last are replaced by [src], which
    must have as many rows; the last row stays. *)
Definition set_init (m src : list (list Q)) : result (list (list Q)) :=
  if (length src =? length m - 1)%nat
  then Ok (src ++ skipn (length m - 1) m)
  else Raise ValueError.

(** Broadcasting of a vector to a row of width [w]: a vector of that
    length is taken as it is, a vector of length one is repeated, every
    other length is refused. *)
Definition broadcast_row (w : nat) (v : list Q) : result (list Q) :=
  if (length v =? w)%nat then Ok v
  else if (length v =? 1)%nat then Ok (repeat (hd 0 v) w)
  else Raise ValueError.

(** [m[-1] = v]: [IndexError] on a matrix without rows; otherwise [v] is
    broadcast to the width of the last row and stored there. *)
Definition set_last (m : list (list Q)) (v : list Q) : result (list (list Q)) :=
  match m with
  | [] => Raise IndexError
  | _ :: _ =>
      match broadcast_row (length (last m [])) v with
      | Ok row => Ok (removelast m ++ [row])
      | Raise e => Raise e
      end
  end.

(** [np.linalg.lstsq(A, y, rcond=None)[0]] for a matrix [A] of two
    columns.  NumPy documents the result as the least-squares solution of
    [A x = y], of minimal norm when [A] has not full rank, and as zero
    when [A] has no rows.  In exact arithmetic that vector is: the solution
    of the normal equations [(A^T A) x = A^T y] when [A^T A] is regular;
    [A^T y / trace (A^T A)] when [A] has rank one; zero when [A] is zero.
    Rows and right-hand side of different lengths raise [LinAlgError]. *)
Definition gram (A : list (Q * Q)) : Q * Q * Q :=
  (sum (map (fun r => fst r * fst r) A),
   sum (map (fun r => fst r * snd r) A),
   sum (map (fun r => snd r * snd r) A)).

Definition rhs (A : list (Q * Q)) (y : list Q) : Q * Q :=
  (sum (map (fun ry => fst (fst ry) * snd ry) (combine A y)),
   sum (map (fun ry => snd (fst ry) * snd ry) (combine A y))).

Definition solve (g : Q * Q * Q) (b : Q * Q) : Q * Q :=
  let '(a11, a12, a22) := g in
  let '(b1, b2) := b in
  let det := a11 * a22 - a12 * a12 in
  let tr := a11 + a22 in
  if Qeq_bool det 0 then
    if Qeq_bool tr 0 then (0, 0) else (b1 / tr, b2 / tr)
  else ((a22 * b1 - a12 * b2) / det, (a11 * b2 - a12 * b1) / det).

Definition lstsq (A : list (Q * Q)) (y : list Q) : result (Q * Q) :=
  if (length A =? length y)%nat then Ok (solve (gram A) (rhs A y))
  else Raise LinAlgError.

End np.

(** ** The manager *)

Record SmartTrafficManager : Type := {
  num_lanes : Z;
  history_length : Z;
  cycle_length : Q;
  vehicle_counts : list (list Q);
  signal_timings : list Q
}.

Definition set_vehicle_counts (vc : list (list Q)) (self : SmartTrafficManager)
  : SmartTrafficManager :=
  {| num_lanes := num_lanes self;
     history_length := history_length self;
     cycle_length := cycle_length self;
     vehicle_counts := vc;
     signal_timings := signal_timings self |}.

Definition set_signal_timings (st : list Q) (self : SmartTrafficManager)
  : SmartTrafficManager :=
  {| num_lanes := num_lanes self;
     history_length := history_length self;
     cycle_length := cycle_length self;
     vehicle_counts := vehicle_counts self;
     signal_timings := st |}.

(** The dictionary returned by [simulate_step]. *)
Record StepResult : Type := {
  latest_counts : list Q;
  predicted_counts : list Q;
  result_timings : list Q
}.

(** [SmartTrafficManager(num_lanes, history_length, cycle_length)]: the
    constructor either returns an instance or raises. *)
Definition init (num_lanes history_length : Z) (cycle_length : Q)
  : result SmartTrafficManager :=
  (vc <-- np.zeros2 history_length num_lanes ;;
   share <-- py_div cycle_length num_lanes ;;
   st <-- np.full num_lanes share ;;
   Ok {| num_lanes := num_lanes;
         history_length := history_length;
         cycle_length := cycle_length;
         vehicle_counts := vc;
         signal_timings := st |})%result.

(** ** Methods: state and exceptions *)

Definition method (A : Type) : Type :=
  SmartTrafficManager -> SmartTrafficManager * result A.

Definition ret {A : Type} (a : A) : method A := fun self => (self, Ok a).

Definition bind {A B : Type} (c : method A) (k : A -> method B) : method B :=
  fun self =>
    match c self with
    | (self', Ok a) => k a self'
    | (self', Raise e) => (self', Raise e)
    end.

Definition get : method SmartTrafficManager := fun self => (self, Ok self).

Definition put (s : SmartTrafficManager) : method unit := fun _ => (s, Ok tt).

Definition lift {A : Type} (r : result A) : method A := fun self => (self, r).

Declare Scope method_scope.
Delimit Scope method_scope with method.
Notation "x <- c ;; k" := (bind c (fun x => k))
  (at level 61, c at next level, right associativity) : method_scope.
Notation "c ;;; k" := (bind c (fun _ => k))
  (at level 61, right associativity) : method_scope.

(** [for x in xs: acc = body x acc], stopping at the first raise. *)
Fixpoint for_each {A B : Type} (xs : list A) (acc : B) (body : A -> B -> method B)
  : method B :=
  match xs with
  | [] => ret acc
  | x :: rest => bind (body x acc) (fun acc' => for_each rest acc' body)
  end.

Local Open Scope method_scope.

Definition update_vehicle_counts (new_counts : list Q) : method unit :=
  self <- get ;;
  shifted <- lift (np.set_init (vehicle_counts self) (tl (vehicle_counts self))) ;;
  put (set_vehicle_counts shifted self) ;;;
  self <- get ;;
  stored <- lift (np.set_last (vehicle_counts self) new_counts) ;;
  put (set_vehicle_counts stored self).

Definition predict_congestion : method (list Q) :=
  self <- get ;;
  predicted_counts <- lift (np.zeros (num_lanes self)) ;;
  let X := np.arange (history_length self) in
  ones <- lift (np.ones (history_length self)) ;;
  X_design <- lift (np.vstack_T X ones) ;;
  predicted_counts <-
    for_each (py_range (num_lanes self)) predicted_counts
      (fun lane predicted_counts =>
         y <- lift (np.column (vehicle_counts self) lane) ;;
         beta <- lift (np.lstsq X_design y) ;;
         let x_next := (inject_Z (history_length self), 1) in
         let pred := np.dot beta x_next in
         lift (np.setitem predicted_counts lane (py_max pred 0))) ;;
  ret predicted_counts.

Definition optimize_signal_timings (predicted_counts : list Q) : method unit :=
  self <- get ;;
  let total := np.sum predicted_counts in
  if Qeq_bool total 0 then
    share <- lift (py_div (cycle_length self) (num_lanes self)) ;;
    st <- lift (np.full (num_lanes self) share) ;;
    put (set_signal_timings st self)
  else
    put (set_signal_timings
           (map (fun p => (p / total) * cycle_length self) predicted_counts)
           self).

Definition simulate_step (new_counts : list Q) : method StepResult :=
  update_vehicle_counts new_counts ;;;
  predicted <- predict_congestion ;;
  optimize_signal_timings predicted ;;;
  self <- get ;;
  ret {| latest_counts := new_counts;
         predicted_counts := predicted;
         result_timings := signal_timings self |}.

Local Close Scope method_scope.

(** ** Vocabulary of the properties *)

(** The number of lanes and of history rows as list lengths. *)
Definition lanes (self : SmartTrafficManager) : nat := Z.to_nat (num_lanes self).
Definition window (self : SmartTrafficManager) : nat := Z.to_nat (history_length self).

(** The shape every constructed manager has and every method keeps: a
    positive number of lanes, and a buffer of [history_length] rows of
    [num_lanes] entries. *)
Definition well_shaped (self : SmartTrafficManager) : Prop :=
  (0 < num_lanes self)%Z /\
  (0 <= history_length self)%Z /\
  length (vehicle_counts self) = window self /\
  Forall (fun row => length row = lanes self) (vehicle_counts self).

(** The configuration the specification calls valid, and its complement. *)
Definition valid_configuration (L H : Z) (c : Q) : Prop :=
  (0 < L)%Z /\ (0 < H)%Z /\ 0 < c.

Definition invalid_configuration (L H : Z) (c : Q) : Prop :=
  (L <= 0)%Z \/ (H <= 0)%Z \/ c <= 0.

(** Equality of vectors up to the representation of their entries. *)
Definition Qlist_eq : list Q -> list Q -> Prop := Forall2 Qeq.

(** The observations of one lane, oldest first. *)
Definition lane_series (self : SmartTrafficManager) (lane : nat) : list Q :=
  map (fun row => nth lane row 0) (vehicle_counts self).

(** The design matrix of [predict_congestion]: rows [(t, 1)], [t = 0..H-1]. *)
Definition design (H : Z) : list (Q * Q) :=
  combine (np.arange H) (repeat 1 (Z.to_nat H)).

(** Sum of squared residuals of [A x - y] for a two-column matrix [A]. *)
Definition residual (A : list (Q * Q)) (y : list Q) (x : Q * Q) : Q :=
  np.sum (map (fun ry => (np.dot (fst ry) x - snd ry) * (np.dot (fst ry) x - snd ry))
              (combine A y)).

(** Sum of squared residuals of the line [slope * t + intercept] against
    the observations [ys] taken at the times [t0, t0 + 1, ...]. *)
Fixpoint line_error (t0 : nat) (ys : list Q) (slope intercept : Q) : Q :=
  match ys with
  | [] => 0
  | y :: rest =>
      (slope * inject_Z (Z.of_nat t0) + intercept - y) *
      (slope * inject_Z (Z.of_nat t0) + intercept - y)
      + line_error (S t0) rest slope intercept
  end.

(** [(slope, intercept)] is an ordinary least-squares fit of [ys] against
    the time indices [0 .. length ys - 1]. *)
Definition least_squares_fit (ys : list Q) (slope intercept : Q) : Prop :=
  forall slope' intercept',
    line_error 0 ys slope intercept <= line_error 0 ys slope' intercept'.

(** The entries of [A^T A] and of [A^T y], as sums over the rows of [A]
    paired with the entries of [y], and the normal equations. *)
Definition g11 (T : list (Q * Q * Q)) : Q :=
  np.sum (map (fun ry => fst (fst ry) * fst (fst ry)) T).
Definition g12 (T : list (Q * Q * Q)) : Q :=
  np.sum (map (fun ry => fst (fst ry) * snd (fst ry)) T).
Definition g22 (T : list (Q * Q * Q)) : Q :=
  np.sum (map (fun ry => snd (fst ry) * snd (fst ry)) T).
Definition h1 (T : list (Q * Q * Q)) : Q :=
  np.sum (map (fun ry => fst (fst ry) * snd ry) T).
Definition h2 (T : list (Q * Q * Q)) : Q :=
  np.sum (map (fun ry => snd (fst ry) * snd ry) T).

(** The three entries of the triple [gram] returns. *)
Definition g11_of_gram (g : Q * Q * Q) : Q := fst (fst g).
Definition g12_of_gram (g : Q * Q * Q) : Q := snd (fst g).
Definition g22_of_gram (g : Q * Q * Q) : Q := snd g.

Definition normal_equations (T : list (Q * Q * Q)) (x : Q * Q) : Prop :=
  g11 T * fst x + g12 T * snd x == h1 T /\
  g12 T * fst x + g22 T * snd x == h2 T.

(** The allocation as the specification words it, with a tolerance [eps]
    around a zero total. *)
Definition allocate_spec (eps cycle : Q) (L : Z) (predicted : list Q) : list Q :=
  let total := np.sum predicted in
  if Qle_bool (Qabs total) eps
  then repeat (cycle / inject_Z L) (Z.to_nat L)
  else map (fun p => (p / total) * cycle) predicted.

(** A wrong-length vector is rejected without a trace, as the specification
    words it: the call raises and the buffer is what it was. *)
Definition rejected_unchanged {A : Type} (call : method A)
  (self : SmartTrafficManager) : Prop :=
  exists self' e,
    call self = (self', Raise e) /\ vehicle_counts self' = vehicle_counts self.

(** The first assignment of [update_vehicle_counts]: every row moves one
    place towards index 0, the last row stays where it is. *)
Definition shift_rows (b : list (list Q)) : list (list Q) :=
  tl b ++ skipn (length b - 1) b.

(** Several updates in a row. *)
Fixpoint submit_all (vs : list (list Q)) : method unit :=
  match vs with
  | [] => ret tt
  | v :: rest => bind (update_vehicle_counts v) (fun _ => submit_all rest)
  end.

(** The same vector fed to [simulate_step] [n + 1] times; the result of the
    last step is returned. *)
Fixpoint feed (n : nat) (v : list Q) : method StepResult :=
  match n with
  | O => simulate_step v
  | S k => bind (simulate_step v) (fun _ => feed k v)
  end.

(** The pure part of one pass of the loop of [predict_congestion]. *)
Definition lane_forecast (self : SmartTrafficManager) (lane : nat) : Q :=
  py_max (np.dot (np.solve (np.gram (design (history_length self)))
                           (np.rhs (design (history_length self))
                                   (lane_series self lane)))
                 (inject_Z (history_length self), 1))
         0.

(** Some managers used as examples. *)
Definition two_by_two : SmartTrafficManager :=
  {| num_lanes := 2; history_length := 2; cycle_length := 120;
     vehicle_counts := [[1; 2]; [3; 4]];
     signal_timings := [60; 60] |}.

Definition four_lanes : SmartTrafficManager :=
  {| num_lanes := 4; history_length := 2; cycle_length := 100;
     vehicle_counts := [[0; 0; 0; 0]; [0; 0; 0; 0]];
     signal_timings := [25; 25; 25; 25] |}.

Definition steady : SmartTrafficManager :=
  {| num_lanes := 3; history_length := 5; cycle_length := 120;
     vehicle_counts := repeat [10; 10; 10] 5;
     signal_timings := [40; 40; 40] |}.

(** The vector [optimize_signal_timings] stores in [signal_timings] when
    it returns. *)
Definition allocation (self : SmartTrafficManager) (predicted : list Q) : list Q :=
  if Qeq_bool (np.sum predicted) 0
  then repeat (cycle_length self / inject_Z (num_lanes self)) (lanes self)
  else map (fun p => (p / np.sum predicted) * cycle_length self) predicted.

(** Several steps in a row; the results are returned in order. *)
Fixpoint simulate_all (vs : list (list Q)) : method (list StepResult) :=
  match vs with
  | [] => ret []
  | v :: rest =>
      bind (simulate_step v)
           (fun r => bind (simulate_all rest) (fun rs => ret (r :: rs)))
  end.

(** The state a returning step leaves: the stored timings are the
    allocation of the prediction read off the stored buffer. *)
Definition settled (self : SmartTrafficManager) : Prop :=
  signal_timings self =
  allocation self (map (lane_forecast self) (seq 0 (lanes self))).

(** Two managers of one configuration. *)
Definition same_configuration (a b : SmartTrafficManager) : Prop :=
  num_lanes a = num_lanes b /\
  history_length a = history_length b /\
  cycle_length a = cycle_length b.

(** A manager constructed with [history_length = 0]. *)
Definition no_history : SmartTrafficManager :=
  {| num_lanes := 4; history_length := 0; cycle_length := 120;
     vehicle_counts := [];
     signal_timings := repeat (120 / inject_Z 4) 4 |}.

(** ** The driver: class [TrafficGUI]

    The state of the window that the methods read: the manager, the
    attributes set by [start_simulation], the step counter, the four
    recorded histories and the state of the two buttons that the methods
    switch.  The text widget and the chart are written and never read; they
    are left out.  An error dialog is counted.

    Random draws are arguments: [draw] stands for the vector
    [np.random.randint(10, 25, size=num_lanes)] and [noise] for
    [np.random.randint(-5, 6, size=self.num_lanes)].  The text of the entry
    field is represented by what [int] makes of it: [Some n], or [None] when
    [int] raises [ValueError]. *)

(** [a + b] on two vectors, with NumPy's broadcasting. *)
Definition np_add (a b : list Q) : result (list Q) :=
  if (length a =? length b)%nat then Ok (map (fun ab => fst ab + snd ab) (combine a b))
  else if (length a =? 1)%nat then Ok (map (fun y => hd 0 a + y) b)
  else if (length b =? 1)%nat then Ok (map (fun x => x + hd 0 b) a)
  else Raise ValueError.

(** [a + k] for a vector and a number. *)
Definition np_add_scalar (a : list Q) (k : Q) : list Q := map (fun x => x + k) a.

(** [np.clip(a, lo, None)]. *)
Definition np_clip_min (a : list Q) (lo : Q) : list Q :=
  map (fun x => if Qle_bool lo x then x else lo) a.

(** A vector [np.random.randint(lo, hi, size=n)] can return: [n] integers
    from [lo] to [hi - 1]. *)
Definition randint_draw (lo hi : Z) (n : Z) (v : list Q) : Prop :=
  length v = Z.to_nat n /\
  Forall (fun x => exists k : Z, x = inject_Z k /\ (lo <= k < hi)%Z) v.

Module GUI.

Inductive button_state : Type := NORMAL | DISABLED.

(** What a callback can end with: an attribute that was never assigned,
    or an exception of the manager that nothing catches. *)
Inductive failure : Type :=
| AttributeError
| Uncaught (e : exn).

Inductive outcome (A : Type) : Type :=
| Returned (a : A)
| Failed (f : failure).

Arguments Returned {A} a.
Arguments Failed {A} f.

Record TrafficGUI : Type := {
  manager : option SmartTrafficManager;
  num_lanes : option Z;
  base_counts : option (list Q);
  time_step : Z;
  latest_counts_list : list (list Q);
  predicted_counts_list : list (list Q);
  signal_timings_list : list (list Q);
  time_steps : list Z;
  execute_button : button_state;
  plot_button : button_state;
  error_dialogs : nat
}.

(** [TrafficGUI(root)]: the attributes of [__init__] and the buttons as
    [build_gui] creates them. *)
Definition initial : TrafficGUI :=
  {| manager := None; num_lanes := None; base_counts := None;
     time_step := 0;
     latest_counts_list := []; predicted_counts_list := [];
     signal_timings_list := []; time_steps := [];
     execute_button := DISABLED; plot_button := DISABLED;
     error_dialogs := 0 |}.

(** [messagebox.showerror(...)]. *)
Definition show_error (gui : TrafficGUI) : TrafficGUI :=
  {| manager := manager gui; num_lanes := num_lanes gui;
     base_counts := base_counts gui; time_step := time_step gui;
     latest_counts_list := latest_counts_list gui;
     predicted_counts_list := predicted_counts_list gui;
     signal_timings_list := signal_timings_list gui;
     time_steps := time_steps gui;
     execute_button := execute_button gui; plot_button := plot_button gui;
     error_dialogs := S (error_dialogs gui) |}.

(** The assignments of [start_simulation] after the constructor returned. *)
Definition started (m : SmartTrafficManager) (n : Z) (draw : list Q)
  (gui : TrafficGUI) : TrafficGUI :=
  {| manager := Some m; num_lanes := Some n; base_counts := Some draw;
     time_step := time_step gui;
     latest_counts_list := latest_counts_list gui;
     predicted_counts_list := predicted_counts_list gui;
     signal_timings_list := signal_timings_list gui;
     time_steps := time_steps gui;
     execute_button := NORMAL; plot_button := DISABLED;
     error_dialogs := error_dialogs gui |}.

(** [start_simulation]: a [ValueError] raised inside the [try] ends in the
    error dialog; any other exception leaves the method. *)
Definition start_simulation (entry : option Z) (draw : list Q) (gui : TrafficGUI)
  : TrafficGUI * outcome unit :=
  match entry with
  | None => (show_error gui, Returned tt)
  | Some n =>
      if (n <=? 0)%Z then (show_error gui, Returned tt)
      else
        match init n 10 120 with
        | Ok m => (started m n draw gui, Returned tt)
        | Raise ValueError => (show_error gui, Returned tt)
        | Raise e => (gui, Failed (Uncaught e))
        end
  end.

(** The assignments at the end of [simulate_step]. *)
Definition recorded (m : SmartTrafficManager) (results : StepResult)
  (gui : TrafficGUI) : TrafficGUI :=
  {| manager := Some m; num_lanes := num_lanes gui;
     base_counts := base_counts gui;
     time_step := time_step gui + 1;
     latest_counts_list := latest_counts_list gui ++ [latest_counts results];
     predicted_counts_list :=
       predicted_counts_list gui ++ [predicted_counts results];
     signal_timings_list := signal_timings_list gui ++ [result_timings results];
     time_steps := time_steps gui ++ [(time_step gui + 1)%Z];
     execute_button := execute_button gui; plot_button := plot_button gui;
     error_dialogs := error_dialogs gui |}.

(** The manager object after a call that raised. *)
Definition with_manager (m : SmartTrafficManager) (gui : TrafficGUI) : TrafficGUI :=
  {| manager := Some m; num_lanes := num_lanes gui;
     base_counts := base_counts gui; time_step := time_step gui;
     latest_counts_list := latest_counts_list gui;
     predicted_counts_list := predicted_counts_list gui;
     signal_timings_list := signal_timings_list gui;
     time_steps := time_steps gui;
     execute_button := execute_button gui; plot_button := plot_button gui;
     error_dialogs := error_dialogs gui |}.

(** The vector [simulate_step] hands to the manager. *)
Definition new_counts (base noise : list Q) (t : Z) : result (list Q) :=
  match np_add base noise with
  | Ok s => Ok (np_clip_min (np_add_scalar s (inject_Z ((t / 5) * 2))) 0)
  | Raise e => Raise e
  end.

Definition simulate_step (noise : list Q) (gui : TrafficGUI)
  : TrafficGUI * outcome unit :=
  match manager gui with
  | None => (gui, Returned tt)
  | Some m =>
      match num_lanes gui, base_counts gui with
      | Some _, Some base =>
          match new_counts base noise (time_step gui) with
          | Raise e => (gui, Failed (Uncaught e))
          | Ok v =>
              match simulate_step v m with
              | (m', Ok results) => (recorded m' results gui, Returned tt)
              | (m', Raise e) => (with_manager m' gui, Failed (Uncaught e))
              end
          end
      | _, _ => (gui, Failed AttributeError)
      end
  end.

Definition enable_plot (gui : TrafficGUI) : TrafficGUI :=
  {| manager := manager gui; num_lanes := num_lanes gui;
     base_counts := base_counts gui; time_step := time_step gui;
     latest_counts_list := latest_counts_list gui;
     predicted_counts_list := predicted_counts_list gui;
     signal_timings_list := signal_timings_list gui;
     time_steps := time_steps gui;
     execute_button := execute_button gui; plot_button := NORMAL;
     error_dialogs := error_dialogs gui |}.

(** One call of [execute_steps]: [true] when it has asked [root.after] to
    call it again. *)
Definition execute_steps (noise : list Q) (gui : TrafficGUI)
  : TrafficGUI * outcome bool :=
  match num_lanes gui with
  | None => (gui, Failed AttributeError)
  | Some n =>
      if (time_step gui <? n)%Z then
        match simulate_step noise gui with
        | (gui', Returned _) => (gui', Returned true)
        | (gui', Failed f) => (gui', Failed f)
        end
      else (enable_plot gui, Returned false)
  end.

(** The calls [root.after] makes, one after the other with nothing in
    between, at most [fuel] of them; [noise_at t] is the noise drawn at step
    counter [t]. *)
Fixpoint mainloop (fuel : nat) (noise_at : Z -> list Q) (gui : TrafficGUI)
  : TrafficGUI * outcome bool :=
  match fuel with
  | O => (gui, Returned true)
  | S k =>
      match execute_steps (noise_at (time_step gui)) gui with
      | (gui', Returned true) => mainloop k noise_at gui'
      | other => other
      end
  end.

End GUI.

(** The histories of the window and its step counter agree: one entry per
    step in each history, and the recorded step numbers are [1, 2, ...]. *)
Definition histories_agree (gui : GUI.TrafficGUI) : Prop :=
  (0 <= GUI.time_step gui)%Z /\
  length (GUI.latest_counts_list gui) = Z.to_nat (GUI.time_step gui) /\
  length (GUI.predicted_counts_list gui) = Z.to_nat (GUI.time_step gui) /\
  length (GUI.signal_timings_list gui) = Z.to_nat (GUI.time_step gui) /\
  GUI.time_steps gui =
    map (fun i => Z.of_nat (S i)) (seq 0 (Z.to_nat (GUI.time_step gui))).

(** A window in which a simulation has been started with [n] lanes. *)
Definition running (n : Z) (gui : GUI.TrafficGUI) : Prop :=
  exists m base,
    GUI.manager gui = Some m /\ GUI.num_lanes gui = Some n /\
    GUI.base_counts gui = Some base /\
    well_shaped m /\ num_lanes m = n /\ (0 < history_length m)%Z /\
    randint_draw 10 25 n base /\ (0 <= GUI.time_step gui)%Z.

Definition gui_small : GUI.TrafficGUI :=
  fst (GUI.start_simulation (Some 2%Z) [12; 20] GUI.initial).

(** ** Construction *)

Lemma init_ok (L H : Z) (c : Q) :
  (0 < L)%Z -> (0 <= H)%Z ->
  init L H c =
    Ok {| num_lanes := L; history_length := H; cycle_length := c;
          vehicle_counts := repeat (repeat 0 (Z.to_nat L)) (Z.to_nat H);
          signal_timings := repeat (c / inject_Z L) (Z.to_nat L) |}.
Proof.
  intros HL HH. unfold init, np.zeros2, py_div, np.full.
  destruct (Z.ltb_spec H 0); [lia|].
  destruct (Z.ltb_spec L 0); [lia|].
  destruct (Z.eqb_spec L 0); [lia|].
  reflexivity.
Qed.

Lemma init_well_shaped (L H : Z) (c : Q) (self : SmartTrafficManager) :
  init L H c = Ok self -> well_shaped self.
Proof.
  unfold init, np.zeros2, py_div, np.full.
  destruct (Z.ltb_spec H 0); [discriminate|].
  destruct (Z.ltb_spec L 0); [discriminate|].
  destruct (Z.eqb_spec L 0); [discriminate|].
  cbn. intros E. injection E as <-.
  unfold well_shaped, lanes, window; cbn.
  repeat split; try lia.
  - apply repeat_length.
  - apply Forall_forall. intros row Hin.
    apply repeat_spec in Hin. subst row. apply repeat_length.
Qed.

(** C10. Right after a construction with a valid configuration the signal
    timings are the equal split, [cycle_length / num_lanes] in every lane,
    and the history buffer is the zero matrix of [history_length] rows and
    [num_lanes] columns. *)
Theorem init_equal_split_zero_buffer (L H : Z) (c : Q) :
  valid_configuration L H c ->
  exists self,
    init L H c = Ok self /\
    signal_timings self = repeat (c / inject_Z L) (Z.to_nat L) /\
    vehicle_counts self = repeat (repeat 0 (Z.to_nat L)) (Z.to_nat H) /\
    num_lanes self = L /\ history_length self = H /\ cycle_length self = c.
Proof.
  intros (HL & HH & _).
  eexists. split.
  - apply init_ok; lia.
  - cbn. repeat split.
Qed.

Lemma init_equal_split_zero_buffer_witness :
  exists self,
    init 4 10 120 = Ok self /\
    signal_timings self = repeat (120 / inject_Z 4) 4 /\
    vehicle_counts self = repeat (repeat 0 4) 10 /\
    num_lanes self = 4%Z /\ history_length self = 10%Z /\ cycle_length self = 120.
Proof.
  apply (init_equal_split_zero_buffer 4 10 120).
  unfold valid_configuration. repeat split; reflexivity.
Defined.

(** C8, as the constructor behaves.  The construction raises exactly when
    [num_lanes] is not positive or [history_length] is negative; a zero
    [history_length] and any [cycle_length] are accepted. *)
Theorem init_raises_iff (L H : Z) (c : Q) :
  (exists e, init L H c = Raise e) <-> (L <= 0)%Z \/ (H < 0)%Z.
Proof.
  split.
  - intros [e E].
    destruct (Z.ltb_spec 0 L) as [HL|HL]; [|left; lia].
    destruct (Z.ltb_spec H 0) as [HH|HH]; [right; lia|].
    rewrite init_ok in E by lia. discriminate.
  - unfold init, np.zeros2, py_div, np.full.
    intros HLH.
    destruct (Z.ltb_spec H 0); cbn; [eauto|].
    destruct (Z.ltb_spec L 0); cbn; [eauto|].
    destruct (Z.eqb_spec L 0); cbn; [eauto|].
    lia.
Qed.

(** C8, the claim refuted: a negative [cycle_length] is an invalid
    configuration, yet the constructor returns an instance, and the instance
    runs a step. *)
Lemma init_accepts_negative_cycle :
  invalid_configuration 4 10 (-120) /\
  exists self,
    init 4 10 (-120) = Ok self /\
    exists self' r, simulate_step [1; 2; 3; 4] self = (self', Ok r).
Proof.
  split.
  - right; right. discriminate.
  - eexists. split; [reflexivity|].
    eexists; eexists. vm_compute. reflexivity.
Qed.

(** ** Which fields a method assigns *)

Lemma bind_frame {A B : Type} (c : method A) (k : A -> method B)
  (s : SmartTrafficManager) :
  fst (c s) = s -> (forall a, fst (k a s) = s) -> fst (bind c k s) = s.
Proof.
  unfold bind. destruct (c s) as [s' [a|e]]; cbn; intros ->; auto.
Qed.

Lemma lift_frame {A : Type} (r : result A) (s : SmartTrafficManager) :
  fst (lift r s) = s.
Proof. reflexivity. Qed.

Lemma for_each_frame {A B : Type} (xs : list A) (body : A -> B -> method B) :
  (forall x acc s, fst (body x acc s) = s) ->
  forall acc s, fst (for_each xs acc body s) = s.
Proof.
  intros Hbody. induction xs as [|x rest IH]; intros acc s; cbn.
  - reflexivity.
  - apply bind_frame; auto.
Qed.

Lemma predict_congestion_frame (self : SmartTrafficManager) :
  fst (predict_congestion self) = self.
Proof.
  unfold predict_congestion.
  apply bind_frame; [reflexivity|]; intros s0.
  apply bind_frame; [apply lift_frame|]; intros zeros.
  apply bind_frame; [apply lift_frame|]; intros ones.
  apply bind_frame; [apply lift_frame|]; intros X_design.
  apply bind_frame; [|reflexivity].
  apply for_each_frame. intros lane acc s.
  apply bind_frame; [apply lift_frame|]; intros y.
  apply bind_frame; [apply lift_frame|]; intros beta.
  apply lift_frame.
Qed.

Lemma set_signal_timings_same (self : SmartTrafficManager) :
  set_signal_timings (signal_timings self) self = self.
Proof. destruct self; reflexivity. Qed.

Lemma optimize_signal_timings_frame (predicted : list Q) (self : SmartTrafficManager) :
  exists st, fst (optimize_signal_timings predicted self) = set_signal_timings st self.
Proof.
  unfold optimize_signal_timings, bind, get, put, lift; cbn.
  destruct (Qeq_bool (np.sum predicted) 0).
  - destruct (py_div (cycle_length self) (num_lanes self)) as [share|e]; cbn.
    + destruct (np.full (num_lanes self) share) as [st|e]; cbn.
      * now exists st.
      * exists (signal_timings self). now rewrite set_signal_timings_same.
    + exists (signal_timings self). now rewrite set_signal_timings_same.
  - eexists; reflexivity.
Qed.

Lemma simulate_step_buffer (v : list Q) (self : SmartTrafficManager) :
  vehicle_counts (fst (simulate_step v self)) =
  vehicle_counts (fst (update_vehicle_counts v self)).
Proof.
  unfold simulate_step. unfold bind at 1.
  destruct (update_vehicle_counts v self) as [s1 [[]|e]]; cbn [fst]; [|reflexivity].
  unfold bind at 1.
  pose proof (predict_congestion_frame s1) as Hp.
  destruct (predict_congestion s1) as [s2 [p|e]]; cbn [fst] in *; subst s2;
    [|reflexivity].
  unfold bind at 1.
  destruct (optimize_signal_timings_frame p s1) as [st Ho].
  destruct (optimize_signal_timings p s1) as [s3 [[]|e]]; cbn [fst] in *; subst s3;
    reflexivity.
Qed.

(** C7. [predict_congestion] reads the buffer and assigns nothing: called
    twice in a row it leaves the manager as it was and returns the same
    prediction (or raises the same exception) both times. *)
Theorem predict_congestion_deterministic (self : SmartTrafficManager) :
  let (self1, first) := predict_congestion self in
  let (self2, second) := predict_congestion self1 in
  first = second /\ self1 = self /\ self2 = self.
Proof.
  pose proof (predict_congestion_frame self) as H1.
  destruct (predict_congestion self) as [self1 first] eqn:E1.
  cbn in H1. subst self1. rewrite E1. auto.
Qed.

(** C9, as the methods behave.  [predict_congestion] assigns no field;
    [optimize_signal_timings] assigns [signal_timings] and nothing else; the
    buffer a [simulate_step] leaves behind is the one its
    [update_vehicle_counts] leaves behind. *)
Theorem buffer_assigned_by_update_only :
  (forall self, fst (predict_congestion self) = self) /\
  (forall predicted self,
      exists st,
        fst (optimize_signal_timings predicted self) = set_signal_timings st self) /\
  (forall v self,
      vehicle_counts (fst (simulate_step v self)) =
      vehicle_counts (fst (update_vehicle_counts v self))).
Proof.
  split; [exact predict_congestion_frame|].
  split; [exact optimize_signal_timings_frame|exact simulate_step_buffer].
Qed.

(** C9, the claim refuted: the allocation is not a pure transform, it
    overwrites the manager's [signal_timings]. *)
Lemma optimize_signal_timings_assigns_state :
  ~ Qlist_eq
      (signal_timings (fst (optimize_signal_timings [30; 10; 0; 0] four_lanes)))
      (signal_timings four_lanes).
Proof.
  vm_compute. intros H. inversion H as [|a b l l' Hab _]; subst.
  discriminate Hab.
Qed.

(** ** The history buffer *)

Lemma skipn_all_but_last {A : Type} (d : A) (l : list A) :
  l <> [] -> skipn (length l - 1) l = [last l d].
Proof.
  induction l as [|a [|b t] IH]; intros Hne.
  - contradiction.
  - reflexivity.
  - replace (length (a :: b :: t) - 1)%nat with (S (length (b :: t) - 1))
      by (cbn [length]; lia).
    cbn [skipn]. rewrite IH by discriminate. reflexivity.
Qed.

Lemma length_tl_pred {A : Type} (l : list A) :
  length (tl l) = (length l - 1)%nat.
Proof. destruct l; cbn; lia. Qed.

Lemma update_vehicle_counts_unfold (v : list Q) (self : SmartTrafficManager) :
  update_vehicle_counts v self =
  match np.set_last (shift_rows (vehicle_counts self)) v with
  | Ok stored => (set_vehicle_counts stored self, Ok tt)
  | Raise e => (set_vehicle_counts (shift_rows (vehicle_counts self)) self, Raise e)
  end.
Proof.
  unfold update_vehicle_counts, bind, get, put, lift, np.set_init; cbn.
  rewrite length_tl_pred, Nat.eqb_refl. cbn.
  fold (shift_rows (vehicle_counts self)).
  destruct (np.set_last (shift_rows (vehicle_counts self)) v); reflexivity.
Qed.

Lemma shift_rows_nonempty (b : list (list Q)) :
  b <> [] -> shift_rows b = tl b ++ [last b []].
Proof.
  intros Hne. unfold shift_rows. now rewrite (skipn_all_but_last []).
Qed.

Lemma set_last_shift_rows (b : list (list Q)) (v : list Q) :
  b <> [] ->
  np.set_last (shift_rows b) v =
  match np.broadcast_row (length (last b [])) v with
  | Ok row => Ok (tl b ++ [row])
  | Raise e => Raise e
  end.
Proof.
  intros Hne. rewrite shift_rows_nonempty by assumption.
  unfold np.set_last.
  destruct (tl b ++ [last b []]) eqn:E.
  - destruct (tl b); discriminate.
  - rewrite <- E. rewrite last_last, removelast_last. reflexivity.
Qed.

Lemma length_shift_rows (b : list (list Q)) : length (shift_rows b) = length b.
Proof.
  destruct b as [|r t].
  - reflexivity.
  - rewrite shift_rows_nonempty by discriminate.
    rewrite length_app. cbn. lia.
Qed.

Lemma length_set_last (b stored : list (list Q)) (v : list Q) :
  np.set_last b v = Ok stored -> length stored = length b.
Proof.
  unfold np.set_last. destruct b as [|r t] eqn:Eb; [discriminate|].
  rewrite <- Eb.
  destruct (np.broadcast_row _ v) as [row|e]; [|discriminate].
  intros E; injection E as <-.
  assert (Hne : b <> []) by (rewrite Eb; discriminate).
  destruct (exists_last Hne) as (l & a & ->).
  rewrite removelast_last, !length_app. reflexivity.
Qed.

(** Whatever the vector and whatever the outcome, an update leaves as many
    rows as it found. *)
Lemma update_vehicle_counts_rows (v : list Q) (self : SmartTrafficManager) :
  length (vehicle_counts (fst (update_vehicle_counts v self))) =
  length (vehicle_counts self).
Proof.
  rewrite update_vehicle_counts_unfold.
  destruct (np.set_last _ v) as [stored|e] eqn:E; cbn.
  - rewrite (length_set_last _ _ _ E). apply length_shift_rows.
  - apply length_shift_rows.
Qed.

Lemma well_shaped_rows (self : SmartTrafficManager) :
  well_shaped self -> (0 < history_length self)%Z ->
  vehicle_counts self <> [] /\ length (last (vehicle_counts self) []) = lanes self.
Proof.
  intros (_ & _ & Hlen & Hrows) HH.
  assert (Hne : vehicle_counts self <> []).
  { intros E. rewrite E in Hlen. unfold window in Hlen. cbn in Hlen. lia. }
  split; [assumption|].
  rewrite Forall_forall in Hrows. apply Hrows.
  destruct (exists_last Hne) as (l & a & ->).
  rewrite last_last. apply in_or_app. right. now left.
Qed.

Lemma well_shaped_set_vehicle_counts (b : list (list Q)) (self : SmartTrafficManager) :
  well_shaped self ->
  length b = window self ->
  Forall (fun row => length row = lanes self) b ->
  well_shaped (set_vehicle_counts b self).
Proof.
  intros (HL & HH & _ & _) Hlen Hrows.
  unfold well_shaped, lanes, window in *; cbn. auto.
Qed.

(** An update with a vector of the right length: the oldest row leaves, the
    other rows keep their order, the vector becomes the newest row. *)
Lemma update_vehicle_counts_ok (v : list Q) (self : SmartTrafficManager) :
  well_shaped self -> (0 < history_length self)%Z ->
  length v = lanes self ->
  update_vehicle_counts v self =
  (set_vehicle_counts (tl (vehicle_counts self) ++ [v]) self, Ok tt).
Proof.
  intros Hw HH Hv.
  destruct (well_shaped_rows self Hw HH) as [Hne Hlast].
  rewrite update_vehicle_counts_unfold, set_last_shift_rows by assumption.
  unfold np.broadcast_row. rewrite Hlast, Hv, Nat.eqb_refl. reflexivity.
Qed.

Lemma update_vehicle_counts_well_shaped (v : list Q) (self : SmartTrafficManager) :
  well_shaped self -> (0 < history_length self)%Z ->
  length v = lanes self ->
  well_shaped (set_vehicle_counts (tl (vehicle_counts self) ++ [v]) self).
Proof.
  intros Hw HH Hv.
  destruct (well_shaped_rows self Hw HH) as [Hne _].
  pose proof Hw as (_ & _ & Hlen & Hrows).
  apply well_shaped_set_vehicle_counts; [assumption| |].
  - rewrite length_app, length_tl_pred, <- Hlen. cbn.
    destruct (vehicle_counts self); [contradiction|cbn; lia].
  - apply Forall_app. split.
    + destruct (vehicle_counts self) as [|r t]; [constructor|].
      now inversion Hrows.
    + constructor; [assumption|constructor].
Qed.

(** A vector of length one is not refused: NumPy repeats its entry in
    every lane of the newest row. *)
Lemma update_vehicle_counts_broadcast (x : Q) (self : SmartTrafficManager) :
  well_shaped self -> (0 < history_length self)%Z ->
  update_vehicle_counts [x] self =
  (set_vehicle_counts (tl (vehicle_counts self) ++ [repeat x (lanes self)]) self,
   Ok tt).
Proof.
  intros Hw HH.
  destruct (well_shaped_rows self Hw HH) as [Hne Hlast].
  rewrite update_vehicle_counts_unfold, set_last_shift_rows by assumption.
  unfold np.broadcast_row. rewrite Hlast. cbn [length hd].
  destruct (Nat.eqb_spec 1 (lanes self)) as [E|E].
  - rewrite <- E. reflexivity.
  - reflexivity.
Qed.

(** A vector of any other length is refused by the second assignment,
    after the first one has been carried out. *)
Lemma update_vehicle_counts_refused (v : list Q) (self : SmartTrafficManager) :
  well_shaped self -> (0 < history_length self)%Z ->
  length v <> lanes self -> length v <> 1%nat ->
  update_vehicle_counts v self =
  (set_vehicle_counts
     (tl (vehicle_counts self) ++ [last (vehicle_counts self) []]) self,
   Raise ValueError).
Proof.
  intros Hw HH Hv Hv1.
  destruct (well_shaped_rows self Hw HH) as [Hne Hlast].
  rewrite update_vehicle_counts_unfold, set_last_shift_rows by assumption.
  unfold np.broadcast_row. rewrite Hlast.
  destruct (Nat.eqb_spec (length v) (lanes self)); [contradiction|].
  destruct (Nat.eqb_spec (length v) 1); [contradiction|].
  now rewrite shift_rows_nonempty.
Qed.

Lemma submit_all_window (vs : list (list Q)) :
  forall self,
    well_shaped self -> (0 < history_length self)%Z ->
    Forall (fun v => length v = lanes self) vs ->
    submit_all vs self =
    (set_vehicle_counts (skipn (length vs) (vehicle_counts self ++ vs)) self,
     Ok tt).
Proof.
  induction vs as [|v rest IH]; intros self Hw HH Hvs.
  - cbn. rewrite app_nil_r. destruct self; reflexivity.
  - inversion Hvs as [|? ? Hv Hrest]; subst.
    cbn [submit_all]. unfold bind.
    rewrite update_vehicle_counts_ok by assumption.
    pose proof (update_vehicle_counts_well_shaped v self Hw HH Hv) as Hw'.
    rewrite IH; [|assumption|assumption|assumption].
    cbn [set_vehicle_counts vehicle_counts num_lanes history_length
         cycle_length signal_timings length].
    destruct (well_shaped_rows self Hw HH) as [Hne _].
    destruct (vehicle_counts self) as [|r t]; [contradiction|].
    cbn [tl]. rewrite <- app_assoc. reflexivity.
Qed.

Lemma two_by_two_well_shaped : well_shaped two_by_two.
Proof.
  unfold well_shaped, lanes, window; cbn.
  repeat split; try lia; repeat constructor.
Defined.

(** C4. The buffer of a manager with [H >= 1] rows keeps exactly [H] rows
    through every update.  An update with a vector of [num_lanes] entries
    drops the row at index 0, moves every other row one index down and
    stores the vector at index [H - 1].  After [H + 1] such updates the
    buffer holds the submitted vectors but the first, so that its oldest row
    is the second vector submitted. *)
Theorem update_sliding_window (self : SmartTrafficManager) :
  well_shaped self -> (0 < history_length self)%Z ->
  (forall v,
      length (vehicle_counts (fst (update_vehicle_counts v self))) = window self) /\
  (forall v, length v = lanes self ->
     exists self',
       update_vehicle_counts v self = (self', Ok tt) /\
       well_shaped self' /\
       vehicle_counts self' = tl (vehicle_counts self) ++ [v] /\
       nth_error (vehicle_counts self') (window self - 1) = Some v /\
       forall i, (i < window self - 1)%nat ->
         nth_error (vehicle_counts self') i = nth_error (vehicle_counts self) (S i)) /\
  (forall vs,
     Forall (fun v => length v = lanes self) vs ->
     length vs = S (window self) ->
     exists self',
       submit_all vs self = (self', Ok tt) /\
       length (vehicle_counts self') = window self /\
       vehicle_counts self' = tl vs /\
       nth_error (vehicle_counts self') 0 = nth_error vs 1).
Proof.
  intros Hw HH.
  pose proof Hw as (_ & _ & Hlen & _).
  split; [|split].
  - intros v. rewrite update_vehicle_counts_rows. exact Hlen.
  - intros v Hv. eexists. split; [now apply update_vehicle_counts_ok|].
    split; [now apply update_vehicle_counts_well_shaped|].
    cbn [set_vehicle_counts vehicle_counts].
    split; [reflexivity|].
    assert (Htl : length (tl (vehicle_counts self)) = (window self - 1)%nat)
      by (rewrite length_tl_pred; lia).
    split.
    + rewrite nth_error_app2 by lia. rewrite Htl, Nat.sub_diag. reflexivity.
    + intros i Hi. rewrite nth_error_app1 by lia.
      destruct (vehicle_counts self); [destruct i|]; reflexivity.
  - intros vs Hvs Hn. eexists. split; [now apply submit_all_window|].
    cbn [set_vehicle_counts vehicle_counts].
    assert (E : skipn (length vs) (vehicle_counts self ++ vs) = tl vs).
    { rewrite skipn_app, skipn_all2 by lia.
      rewrite Hn, Hlen. replace (S (window self) - window self)%nat with 1%nat by lia.
      destruct vs; reflexivity. }
    rewrite E. split; [|split].
    + rewrite length_tl_pred. lia.
    + reflexivity.
    + destruct vs; reflexivity.
Qed.

Lemma update_sliding_window_witness :
  exists self',
    submit_all [[5; 6]; [7; 8]; [9; 10]] two_by_two = (self', Ok tt) /\
    nth_error (vehicle_counts self') 0 = Some [7; 8].
Proof.
  assert (HH : (0 < history_length two_by_two)%Z) by reflexivity.
  destruct (update_sliding_window two_by_two two_by_two_well_shaped HH)
    as (_ & _ & Hrun).
  destruct (Hrun [[5; 6]; [7; 8]; [9; 10]]) as (self' & E & _ & _ & Hold).
  - repeat constructor.
  - reflexivity.
  - exists self'. split; [exact E|exact Hold].
Defined.

(** C5, as the methods behave.  On a manager with [H >= 1] rows a vector
    whose length is neither [num_lanes] nor one makes [update_vehicle_counts]
    and [simulate_step] raise [ValueError]; neither prediction nor allocation
    runs and configuration and signal timings are untouched, but the first
    assignment has been carried out already: the buffer left behind is the
    old rows [1 .. H-1] followed by the old row [H-1] once more.  For [H = 1]
    that is the buffer as it was; for [H >= 2] the oldest row is lost and the
    newest row is there twice. *)
Theorem wrong_length_raises_after_shift (self : SmartTrafficManager) (v : list Q) :
  well_shaped self -> (0 < history_length self)%Z ->
  length v <> lanes self -> length v <> 1%nat ->
  let shifted :=
    set_vehicle_counts
      (tl (vehicle_counts self) ++ [last (vehicle_counts self) []]) self in
  update_vehicle_counts v self = (shifted, Raise ValueError) /\
  simulate_step v self = (shifted, Raise ValueError) /\
  (history_length self = 1%Z -> shifted = self).
Proof.
  intros Hw HH Hv Hv1 shifted.
  pose proof (update_vehicle_counts_refused v self Hw HH Hv Hv1) as E.
  split; [exact E|]. split.
  - unfold simulate_step, bind. rewrite E. reflexivity.
  - intros H1. subst shifted.
    destruct Hw as (_ & _ & Hlen & _). unfold window in Hlen. rewrite H1 in Hlen.
    destruct self as [L H c b st]. cbn in *.
    destruct b as [|r0 [|r1 t]]; try discriminate Hlen. reflexivity.
Qed.

Lemma wrong_length_raises_after_shift_witness :
  update_vehicle_counts [5; 6; 7] two_by_two =
    (set_vehicle_counts [[3; 4]; [3; 4]] two_by_two, Raise ValueError) /\
  simulate_step [5; 6; 7] two_by_two =
    (set_vehicle_counts [[3; 4]; [3; 4]] two_by_two, Raise ValueError).
Proof.
  destruct (wrong_length_raises_after_shift two_by_two [5; 6; 7])
    as (Hu & Hs & _).
  - exact two_by_two_well_shaped.
  - reflexivity.
  - cbn; lia.
  - cbn; lia.
  - split; [exact Hu|exact Hs].
Defined.

(** C5, the claim refuted: a vector of three entries given to a manager of
    two lanes makes the update raise, but the buffer is not what it was. *)
Lemma wrong_length_changes_buffer :
  length [5; 6; 7] <> lanes two_by_two /\
  ~ rejected_unchanged (update_vehicle_counts [5; 6; 7]) two_by_two /\
  ~ rejected_unchanged (simulate_step [5; 6; 7]) two_by_two.
Proof.
  split; [cbn; lia|].
  split; intros (self' & e & E & Hvc); vm_compute in E;
    injection E as <- _; discriminate Hvc.
Qed.

(** ** The loop of [predict_congestion] *)

Lemma column_ok (m : list (list Q)) (w lane : nat) :
  Forall (fun row => length row = w) m -> (lane < w)%nat ->
  np.column m lane = Ok (map (fun row => nth lane row 0) m).
Proof.
  intros Hrows Hlane. induction Hrows as [|row rest Hrow _ IH]; cbn.
  - reflexivity.
  - rewrite (nth_error_nth' row 0) by lia. now rewrite IH.
Qed.

Lemma setitem_app (done rest : list Q) (a x : Q) :
  np.setitem (done ++ a :: rest) (length done) x = Ok (done ++ x :: rest).
Proof.
  induction done as [|d done IH]; cbn.
  - reflexivity.
  - cbn in IH. now rewrite IH.
Qed.

Lemma length_design (H : Z) : length (design H) = Z.to_nat H.
Proof.
  unfold design, np.arange.
  rewrite length_combine, length_map, length_seq, repeat_length. lia.
Qed.

Lemma for_each_lanes (self : SmartTrafficManager) (f : nat -> Q)
  (body : nat -> list Q -> method (list Q)) :
  (forall lane acc s, (lane < lanes self)%nat ->
     body lane acc s = (s, np.setitem acc lane (f lane))) ->
  forall n k done,
    length done = k -> (k + n = lanes self)%nat ->
    for_each (seq k n) (done ++ repeat 0 n) body self =
    (self, Ok (done ++ map f (seq k n))).
Proof.
  intros Hbody. induction n as [|n IH]; intros k done Hk Hkn; cbn.
  - reflexivity.
  - unfold bind. rewrite Hbody by lia.
    rewrite <- Hk, setitem_app.
    replace (done ++ f (length done) :: repeat 0 n)
      with ((done ++ [f (length done)]) ++ repeat 0 n)
      by (now rewrite <- app_assoc).
    rewrite IH.
    + now rewrite <- app_assoc, Hk.
    + rewrite length_app. cbn. lia.
    + lia.
Qed.

(** On a well-shaped manager [predict_congestion] returns, lane by lane,
    the clamped value at [t = H] of the line [lstsq] fits to the lane. *)
Lemma predict_congestion_ok (self : SmartTrafficManager) :
  well_shaped self ->
  predict_congestion self =
  (self, Ok (map (lane_forecast self) (seq 0 (lanes self)))).
Proof.
  intros (HL & HH & Hlen & Hrows).
  unfold predict_congestion, np.zeros, np.ones, np.full, np.vstack_T.
  unfold bind at 1, get. unfold bind at 1, lift at 1.
  destruct (Z.ltb_spec (num_lanes self) 0); [lia|].
  unfold bind at 1, lift at 1.
  destruct (Z.ltb_spec (history_length self) 0); [lia|].
  unfold bind at 1, lift at 1.
  assert (E : (length (np.arange (history_length self))
               =? length (repeat 1%Q (Z.to_nat (history_length self))))%nat = true).
  { apply Nat.eqb_eq. unfold np.arange.
    now rewrite length_map, length_seq, repeat_length. }
  rewrite E. fold (design (history_length self)).
  unfold bind at 1, py_range. fold (lanes self).
  match goal with
  | |- context [for_each _ _ ?body _] =>
      assert (Hloop := for_each_lanes self (lane_forecast self) body)
  end.
  specialize (fun Hbody => Hloop Hbody (lanes self) 0%nat [] eq_refl eq_refl).
  cbn [app] in Hloop. rewrite Hloop.
  - reflexivity.
  - intros lane acc s Hlane. unfold bind, lift.
    rewrite (column_ok _ (lanes self)) by assumption.
    fold (lane_series self lane). unfold np.lstsq.
    rewrite length_design. unfold lane_series at 1.
    rewrite length_map, Hlen. unfold window. rewrite Nat.eqb_refl.
    reflexivity.
Qed.

Lemma py_max_spec (a b : Q) : py_max a b == Qmax a b.
Proof.
  unfold py_max. destruct (Qle_bool b a) eqn:E.
  - apply Qle_bool_iff in E. symmetry. now apply Q.max_l.
  - assert (H : ~ b <= a) by (intros H; apply Qle_bool_iff in H; congruence).
    symmetry. apply Q.max_r. lra.
Qed.

Lemma py_max_nonneg (a : Q) : 0 <= py_max a 0.
Proof.
  unfold py_max. destruct (Qle_bool 0 a) eqn:E.
  - now apply Qle_bool_iff.
  - apply Qle_refl.
Qed.

Lemma lane_forecast_nonneg (self : SmartTrafficManager) (lane : nat) :
  0 <= lane_forecast self lane.
Proof. apply py_max_nonneg. Qed.

(** ** The allocation *)



Lemma sum_nonneg (l : list Q) : Forall (fun p => 0 <= p) l -> 0 <= np.sum l.
Proof.
  induction 1 as [|p l Hp _ IH]; cbn.
  - lra.
  - fold (np.sum l). lra.
Qed.

Lemma optimize_signal_timings_zero (predicted : list Q) (self : SmartTrafficManager) :
  (0 < num_lanes self)%Z -> np.sum predicted == 0 ->
  optimize_signal_timings predicted self =
  (set_signal_timings
     (repeat (cycle_length self / inject_Z (num_lanes self)) (lanes self)) self,
   Ok tt).
Proof.
  intros HL Hz. apply Qeq_bool_iff in Hz.
  unfold optimize_signal_timings, bind, get, put, lift, py_div, np.full; cbn.
  rewrite Hz.
  destruct (Z.eqb_spec (num_lanes self) 0); [lia|]. cbn.
  destruct (Z.ltb_spec (num_lanes self) 0); [lia|]. reflexivity.
Qed.

Lemma optimize_signal_timings_nonzero (predicted : list Q) (self : SmartTrafficManager) :
  ~ np.sum predicted == 0 ->
  optimize_signal_timings predicted self =
  (set_signal_timings
     (map (fun p => (p / np.sum predicted) * cycle_length self) predicted) self,
   Ok tt).
Proof.
  intros Hnz.
  unfold optimize_signal_timings, bind, get, put, lift; cbn.
  destruct (Qeq_bool (np.sum predicted) 0) eqn:E; [|reflexivity].
  apply Qeq_bool_iff in E. contradiction.
Qed.


Lemma nth_repeat_below (x d : Q) (n lane : nat) :
  (lane < n)%nat -> nth lane (repeat x n) d = x.
Proof.
  revert lane. induction n as [|n IH]; intros [|lane] H; cbn; try lia; auto.
  apply IH. lia.
Qed.

Lemma nth_map_below (f : Q -> Q) (l : list Q) (lane : nat) :
  (lane < length l)%nat -> nth lane (map f l) 0 = f (nth lane l 0).
Proof.
  intros H. rewrite (nth_indep _ 0 (f 0)) by (now rewrite length_map).
  apply map_nth.
Qed.



(** For a total that is not negative, a tolerance of zero is the exact
    test the code makes. *)
Lemma tolerance_zero (t : Q) :
  0 <= t -> Qle_bool (Qabs t) 0 = Qeq_bool t 0.
Proof.
  intros Ht. pose proof (Qabs_pos t Ht) as Ha.
  destruct (Qeq_bool t 0) eqn:E.
  - apply Qeq_bool_iff in E. apply Qle_bool_iff. rewrite Ha. lra.
  - destruct (Qle_bool (Qabs t) 0) eqn:E'; [|reflexivity].
    apply Qle_bool_iff in E'. rewrite Ha in E'.
    assert (Hz : t == 0) by lra.
    apply Qeq_bool_iff in Hz. congruence.
Qed.

(** C3, as the allocation behaves.  For a prediction vector without
    negative entries, one entry per lane: when its sum is zero every lane
    gets [cycle_length / num_lanes]; when its sum is not zero, however small,
    lane [i] gets [(predicted[i] / total) * cycle_length], which is zero for
    a lane whose prediction is zero.  This is the allocation of the
    specification with the tolerance set to zero. *)
Theorem optimize_signal_timings_exact_zero
  (self : SmartTrafficManager) (predicted : list Q) :
  (0 < num_lanes self)%Z ->
  length predicted = lanes self ->
  Forall (fun p => 0 <= p) predicted ->
  exists st,
    optimize_signal_timings predicted self = (set_signal_timings st self, Ok tt) /\
    length st = lanes self /\
    st = allocate_spec 0 (cycle_length self) (num_lanes self) predicted /\
    (np.sum predicted == 0 ->
     forall lane, (lane < lanes self)%nat ->
       nth lane st 0 = cycle_length self / inject_Z (num_lanes self)) /\
    (~ np.sum predicted == 0 ->
     forall lane, (lane < lanes self)%nat ->
       nth lane st 0 = (nth lane predicted 0 / np.sum predicted) * cycle_length self /\
       (nth lane predicted 0 == 0 -> nth lane st 0 == 0)).
Proof.
  intros HL Hlen Hp.
  pose proof (tolerance_zero _ (sum_nonneg _ Hp)) as Htol.
  unfold allocate_spec. rewrite Htol.
  destruct (Qeq_dec (np.sum predicted) 0) as [Hz|Hnz].
  - eexists. split; [now apply optimize_signal_timings_zero|].
    split; [apply repeat_length|]. split; [|split].
    + apply Qeq_bool_iff in Hz. rewrite Hz. reflexivity.
    + intros _ lane Hlane. now apply nth_repeat_below.
    + intros Hnz. contradiction.
  - eexists. split; [now apply optimize_signal_timings_nonzero|].
    split; [now rewrite length_map|]. split; [|split].
    + destruct (Qeq_bool (np.sum predicted) 0) eqn:E; [|reflexivity].
      apply Qeq_bool_iff in E. contradiction.
    + intros Hz. contradiction.
    + intros _ lane Hlane.
      rewrite nth_map_below by lia. split; [reflexivity|].
      intros E. rewrite E. unfold Qdiv. ring.
Qed.

Lemma optimize_signal_timings_exact_zero_witness :
  exists st,
    optimize_signal_timings [30; 10; 0; 0] four_lanes =
      (set_signal_timings st four_lanes, Ok tt) /\
    nth 0 st 0 == 75 /\ nth 1 st 0 == 25 /\ nth 2 st 0 == 0 /\ nth 3 st 0 == 0.
Proof.
  destruct (optimize_signal_timings_exact_zero four_lanes [30; 10; 0; 0])
    as (st & E & _ & _ & _ & Hshare).
  - reflexivity.
  - reflexivity.
  - repeat constructor; discriminate.
  - assert (Hnz : ~ np.sum [30; 10; 0; 0] == 0) by discriminate.
    exists st. split; [exact E|].
    destruct (Hshare Hnz 0%nat) as [E0 _]; [cbn; lia|].
    destruct (Hshare Hnz 1%nat) as [E1 _]; [cbn; lia|].
    destruct (Hshare Hnz 2%nat) as [E2 _]; [cbn; lia|].
    destruct (Hshare Hnz 3%nat) as [E3 _]; [cbn; lia|].
    rewrite E0, E1, E2, E3. repeat split; reflexivity.
Defined.

(** C3, the claim refuted: a total of [1e-10] lies within the tolerance
    [1e-9] the specification names, and the allocation is the proportional
    one all the same, not the equal split. *)
Lemma no_tolerance_around_zero :
  Forall (fun p => 0 <= p) [1 # 10000000000; 0] /\
  Qabs (np.sum [1 # 10000000000; 0]) <= 1 # 1000000000 /\
  ~ Qlist_eq
      (signal_timings
         (fst (optimize_signal_timings [1 # 10000000000; 0] two_by_two)))
      (allocate_spec (1 # 1000000000) 120 2 [1 # 10000000000; 0]).
Proof.
  split; [repeat constructor; discriminate|].
  split; [discriminate|].
  vm_compute. intros H. inversion H as [|a b l l' Hab _]; subst.
  discriminate Hab.
Qed.











(** ** Least squares *)

Lemma sum_cons (x : Q) (l : list Q) : np.sum (x :: l) = x + np.sum l.
Proof. reflexivity. Qed.

Lemma sum_app (l l' : list Q) : np.sum (l ++ l') == np.sum l + np.sum l'.
Proof.
  induction l as [|x l IH].
  - cbn [app]. change (np.sum []) with 0. ring.
  - cbn [app]. rewrite !sum_cons, IH. ring.
Qed.

Section Sums.

Context {A : Type}.
Variable f : A -> Q.

Lemma sum_squares_nonneg (l : list A) :
  0 <= np.sum (map (fun a => f a * f a) l).
Proof.
  induction l as [|a l IH]; cbn [map].
  - apply Qle_refl.
  - rewrite sum_cons. assert (Hsq : 0 <= f a * f a) by nra. lra.
Qed.

Lemma sum_squares_zero (l : list A) :
  np.sum (map (fun a => f a * f a) l) == 0 ->
  forall a, In a l -> f a == 0.
Proof.
  induction l as [|a0 l IH]; cbn [map]; intros Hz a Hin.
  - destruct Hin.
  - rewrite sum_cons in Hz.
    assert (Hsq : 0 <= f a0 * f a0) by nra.
    pose proof (sum_squares_nonneg l) as Hrest.
    destruct Hin as [<-|Hin].
    + assert (E : f a0 * f a0 == 0) by lra.
      apply Qmult_integral in E. tauto.
    + apply IH; [lra|assumption].
Qed.

Lemma sum_weighted_zero (g : A -> Q) (l : list A) :
  (forall a, In a l -> f a == 0) ->
  np.sum (map (fun a => f a * g a) l) == 0.
Proof.
  induction l as [|a0 l IH]; cbn [map]; intros Hz.
  - reflexivity.
  - rewrite sum_cons, IH by (intros a Ha; apply Hz; now right).
    rewrite (Hz a0) by now left. ring.
Qed.

End Sums.

Section NormalEquations.

Variable T : list (Q * Q * Q).

(** The squared length of [A (a, b)] and the product of [A (a, b)] with
    [y], through the entries of [A^T A] and [A^T y]. *)
Lemma combination_squares (a b : Q) :
  np.sum (map (fun ry => (a * fst (fst ry) + b * snd (fst ry)) *
                         (a * fst (fst ry) + b * snd (fst ry))) T)
  == a * a * g11 T + 2 * a * b * g12 T + b * b * g22 T.
Proof.
  unfold g11, g12, g22. induction T as [|ry l IH]; cbn [map].
  - change (np.sum []) with 0. ring.
  - rewrite !sum_cons, IH. ring.
Qed.

Lemma combination_rhs (a b : Q) :
  np.sum (map (fun ry => (a * fst (fst ry) + b * snd (fst ry)) * snd ry) T)
  == a * h1 T + b * h2 T.
Proof.
  unfold h1, h2. induction T as [|ry l IH]; cbn [map].
  - change (np.sum []) with 0. ring.
  - rewrite !sum_cons, IH. ring.
Qed.

(** A combination of the columns of [A] that vanishes is orthogonal to
    [y]. *)
Lemma vanishing_combination (a b : Q) :
  a * a * g11 T + 2 * a * b * g12 T + b * b * g22 T == 0 ->
  a * h1 T + b * h2 T == 0.
Proof.
  intros Hz. rewrite <- combination_squares in Hz.
  rewrite <- combination_rhs.
  apply (sum_weighted_zero
           (fun ry => a * fst (fst ry) + b * snd (fst ry)) (fun ry => snd ry)).
  exact (sum_squares_zero
           (fun ry => a * fst (fst ry) + b * snd (fst ry)) T Hz).
Qed.

Lemma g11_nonneg : 0 <= g11 T.
Proof. apply (sum_squares_nonneg (fun ry => fst (fst ry))). Qed.

Lemma g22_nonneg : 0 <= g22 T.
Proof. apply (sum_squares_nonneg (fun ry => snd (fst ry))). Qed.

(** The vector [solve] returns satisfies the normal equations, in each of
    its three cases. *)
Lemma solve_normal_equations :
  normal_equations T (np.solve (g11 T, g12 T, g22 T) (h1 T, h2 T)).
Proof.
  unfold normal_equations, np.solve.
  destruct (Qeq_bool (g11 T * g22 T - g12 T * g12 T) 0) eqn:Edet.
  - apply Qeq_bool_iff in Edet.
    pose proof (vanishing_combination (g22 T) (- g12 T)) as H1.
    pose proof (vanishing_combination (- g12 T) (g11 T)) as H2.
    assert (E1 : g22 T * h1 T + - g12 T * h2 T == 0).
    { apply H1.
      setoid_replace (g22 T * g22 T * g11 T + 2 * g22 T * - g12 T * g12 T
                      + - g12 T * - g12 T * g22 T)
        with (g22 T * (g11 T * g22 T - g12 T * g12 T)) by ring.
      rewrite Edet. ring. }
    assert (E2 : - g12 T * h1 T + g11 T * h2 T == 0).
    { apply H2.
      setoid_replace (- g12 T * - g12 T * g11 T + 2 * - g12 T * g11 T * g12 T
                      + g11 T * g11 T * g22 T)
        with (g11 T * (g11 T * g22 T - g12 T * g12 T)) by ring.
      rewrite Edet. ring. }
    destruct (Qeq_bool (g11 T + g22 T) 0) eqn:Etr.
    + apply Qeq_bool_iff in Etr.
      pose proof g11_nonneg as P1. pose proof g22_nonneg as P2.
      assert (Z1 : g11 T == 0) by lra.
      assert (Z2 : g22 T == 0) by lra.
      pose proof (vanishing_combination 1 0) as K1.
      pose proof (vanishing_combination 0 1) as K2.
      assert (Hh1 : h1 T == 0).
      { setoid_replace (h1 T) with (1 * h1 T + 0 * h2 T) by ring.
        apply K1. rewrite Z1. ring. }
      assert (Hh2 : h2 T == 0).
      { setoid_replace (h2 T) with (0 * h1 T + 1 * h2 T) by ring.
        apply K2. rewrite Z2. ring. }
      cbn [fst snd]. rewrite Hh1, Hh2. split; ring.
    + assert (Htr : ~ g11 T + g22 T == 0)
        by (intros E; apply Qeq_bool_iff in E; congruence).
      cbn [fst snd]. split.
      * setoid_replace (g11 T * (h1 T / (g11 T + g22 T))
                        + g12 T * (h2 T / (g11 T + g22 T)))
          with ((g11 T * h1 T + g12 T * h2 T) / (g11 T + g22 T))
          by (field; assumption).
        setoid_replace (g11 T * h1 T + g12 T * h2 T)
          with ((g11 T + g22 T) * h1 T
                - (g22 T * h1 T + - g12 T * h2 T)) by ring.
        rewrite E1. field. assumption.
      * setoid_replace (g12 T * (h1 T / (g11 T + g22 T))
                        + g22 T * (h2 T / (g11 T + g22 T)))
          with ((g12 T * h1 T + g22 T * h2 T) / (g11 T + g22 T))
          by (field; assumption).
        setoid_replace (g12 T * h1 T + g22 T * h2 T)
          with ((g11 T + g22 T) * h2 T
                - (- g12 T * h1 T + g11 T * h2 T)) by ring.
        rewrite E2. field. assumption.
  - assert (Hdet : ~ g11 T * g22 T - g12 T * g12 T == 0)
      by (intros E; apply Qeq_bool_iff in E; congruence).
    cbn [fst snd]. split; field; assumption.
Qed.

End NormalEquations.

(** The residual at [x] exceeds the residual at [beta] by the squared
    length of [A (x - beta)], up to a term the normal equations cancel. *)
Lemma residual_split (T : list (Q * Q * Q)) (beta x : Q * Q) :
  np.sum (map (fun ry => (np.dot (fst ry) x - snd ry) *
                         (np.dot (fst ry) x - snd ry)) T)
  == np.sum (map (fun ry => (np.dot (fst ry) beta - snd ry) *
                            (np.dot (fst ry) beta - snd ry)) T)
     + np.sum (map (fun ry =>
                      ((fst x - fst beta) * fst (fst ry)
                       + (snd x - snd beta) * snd (fst ry)) *
                      ((fst x - fst beta) * fst (fst ry)
                       + (snd x - snd beta) * snd (fst ry))) T)
     + 2 * ((fst x - fst beta) * (g11 T * fst beta + g12 T * snd beta - h1 T)
            + (snd x - snd beta) * (g12 T * fst beta + g22 T * snd beta - h2 T)).
Proof.
  unfold g11, g12, g22, h1, h2, np.dot.
  induction T as [|ry l IH]; cbn [map].
  - change (np.sum []) with 0. ring.
  - rewrite !sum_cons, IH. ring.
Qed.

Lemma normal_equations_minimise (T : list (Q * Q * Q)) (beta : Q * Q) :
  normal_equations T beta ->
  forall x,
    np.sum (map (fun ry => (np.dot (fst ry) beta - snd ry) *
                           (np.dot (fst ry) beta - snd ry)) T)
    <= np.sum (map (fun ry => (np.dot (fst ry) x - snd ry) *
                              (np.dot (fst ry) x - snd ry)) T).
Proof.
  intros [N1 N2] x. rewrite (residual_split T beta x).
  pose proof (sum_squares_nonneg
                (fun ry : Q * Q * Q =>
                   (fst x - fst beta) * fst (fst ry)
                   + (snd x - snd beta) * snd (fst ry)) T) as Hsq.
  cbv beta in Hsq.
  setoid_replace (g11 T * fst beta + g12 T * snd beta - h1 T) with 0
    by (rewrite N1; ring).
  setoid_replace (g12 T * fst beta + g22 T * snd beta - h2 T) with 0
    by (rewrite N2; ring).
  lra.
Qed.

Lemma map_fst_combine {B C D : Type} (f : B -> D) (l : list B) (l' : list C) :
  length l = length l' ->
  map (fun p => f (fst p)) (combine l l') = map f l.
Proof.
  revert l'. induction l as [|b l IH]; intros [|c l'] H; cbn in *;
    try discriminate; [reflexivity|].
  f_equal. apply IH. lia.
Qed.

Lemma gram_combine (A : list (Q * Q)) (y : list Q) :
  length A = length y ->
  np.gram A = (g11 (combine A y), g12 (combine A y), g22 (combine A y)).
Proof.
  intros H. unfold np.gram, g11, g12, g22.
  rewrite (map_fst_combine (fun r => fst r * fst r) A y H).
  rewrite (map_fst_combine (fun r => fst r * snd r) A y H).
  rewrite (map_fst_combine (fun r => snd r * snd r) A y H).
  reflexivity.
Qed.

(** [lstsq] on a matrix and a right-hand side of one length returns a
    vector of least residual. *)
Lemma lstsq_least_residual (A : list (Q * Q)) (y : list Q) :
  length A = length y ->
  exists beta,
    np.lstsq A y = Ok beta /\
    normal_equations (combine A y) beta /\
    forall x, residual A y beta <= residual A y x.
Proof.
  intros H. unfold np.lstsq. rewrite H, Nat.eqb_refl.
  eexists. split; [reflexivity|].
  rewrite (gram_combine A y H).
  change (np.rhs A y) with (h1 (combine A y), h2 (combine A y)).
  pose proof (solve_normal_equations (combine A y)) as Hn.
  split; [exact Hn|].
  intros x. apply (normal_equations_minimise _ _ Hn).
Qed.

(** The residual over the design matrix is the error of the line. *)
Lemma residual_design_from (slope intercept : Q) (ys : list Q) :
  forall k,
    np.sum (map (fun ry => (np.dot (fst ry) (slope, intercept) - snd ry) *
                           (np.dot (fst ry) (slope, intercept) - snd ry))
                (combine (combine (map (fun t => inject_Z (Z.of_nat t))
                                       (seq k (length ys)))
                                  (repeat 1 (length ys))) ys))
    == line_error k ys slope intercept.
Proof.
  induction ys as [|y ys IH]; intros k.
  - reflexivity.
  - cbn [length seq map repeat combine line_error].
    rewrite sum_cons, IH. unfold np.dot. cbn [fst snd]. ring.
Qed.

Lemma residual_design (H : Z) (ys : list Q) (slope intercept : Q) :
  length ys = Z.to_nat H ->
  residual (design H) ys (slope, intercept) == line_error 0 ys slope intercept.
Proof.
  intros Hlen. unfold residual, design, np.arange. rewrite <- Hlen.
  apply residual_design_from.
Qed.

Lemma nth_map_seq (f : nat -> Q) (n lane : nat) :
  (lane < n)%nat -> nth lane (map f (seq 0 n)) 0 = f lane.
Proof.
  intros H. rewrite (nth_indep _ 0 (f 0%nat)) by (now rewrite length_map, length_seq).
  rewrite map_nth, seq_nth by assumption. reflexivity.
Qed.

Lemma length_lane_series (self : SmartTrafficManager) (lane : nat) :
  well_shaped self -> length (lane_series self lane) = window self.
Proof.
  intros (_ & _ & Hlen & _). unfold lane_series. now rewrite length_map.
Qed.

(** C1. On every well-shaped manager [predict_congestion] returns one
    forecast per lane.  The forecast of a lane is computed from the [H]
    observations of that lane alone: [lstsq] returns a slope and an
    intercept whose line has the least sum of squared errors against the
    observations at the times [0 .. H-1] among all lines, and the forecast
    is the value of that line at [t = H], or zero when that value is
    negative. *)
Theorem predict_congestion_least_squares (self : SmartTrafficManager) :
  well_shaped self ->
  exists predicted,
    predict_congestion self = (self, Ok predicted) /\
    length predicted = lanes self /\
    forall lane, (lane < lanes self)%nat ->
      exists slope intercept,
        length (lane_series self lane) = window self /\
        np.lstsq (design (history_length self)) (lane_series self lane)
          = Ok (slope, intercept) /\
        least_squares_fit (lane_series self lane) slope intercept /\
        nth lane predicted 0
          == Qmax (slope * inject_Z (history_length self) + intercept) 0.
Proof.
  intros Hw. eexists. split; [now apply predict_congestion_ok|].
  split; [now rewrite length_map, length_seq|].
  intros lane Hlane.
  pose proof (length_lane_series self lane Hw) as Hlen.
  assert (HA : length (design (history_length self)) = length (lane_series self lane))
    by (rewrite length_design, Hlen; reflexivity).
  set (beta := np.solve (np.gram (design (history_length self)))
                        (np.rhs (design (history_length self))
                                (lane_series self lane))).
  assert (El : np.lstsq (design (history_length self)) (lane_series self lane)
               = Ok (fst beta, snd beta)).
  { unfold np.lstsq. rewrite HA, Nat.eqb_refl, <- surjective_pairing.
    reflexivity. }
  destruct (lstsq_least_residual _ _ HA) as (beta' & El' & _ & Hmin).
  assert (Eb : beta' = (fst beta, snd beta)) by congruence.
  subst beta'.
  exists (fst beta), (snd beta).
  split; [exact Hlen|]. split; [exact El|]. split.
  - intros slope' intercept'.
    rewrite <- !(residual_design (history_length self)) by exact Hlen.
    apply Hmin.
  - rewrite nth_map_seq by assumption.
    unfold lane_forecast. fold beta. rewrite py_max_spec.
    unfold np.dot. cbn [fst snd].
    setoid_replace (fst beta * inject_Z (history_length self) + snd beta * 1)
      with (fst beta * inject_Z (history_length self) + snd beta) by ring.
    reflexivity.
Qed.

Lemma predict_congestion_least_squares_witness :
  exists predicted,
    predict_congestion two_by_two = (two_by_two, Ok predicted) /\
    length predicted = lanes two_by_two /\
    forall lane, (lane < lanes two_by_two)%nat ->
      exists slope intercept,
        length (lane_series two_by_two lane) = window two_by_two /\
        np.lstsq (design (history_length two_by_two)) (lane_series two_by_two lane)
          = Ok (slope, intercept) /\
        least_squares_fit (lane_series two_by_two lane) slope intercept /\
        nth lane predicted 0
          == Qmax (slope * inject_Z (history_length two_by_two) + intercept) 0.
Proof.
  apply (predict_congestion_least_squares two_by_two).
  exact two_by_two_well_shaped.
Defined.

(** ** A constant history *)

(** The sums of the design matrix, from any first time index [k]. *)
Lemma design_sums (n : nat) :
  forall k,
    let A := combine (map (fun t => inject_Z (Z.of_nat t)) (seq k n)) (repeat 1 n) in
    let N := inject_Z (Z.of_nat n) in
    let K := inject_Z (Z.of_nat k) in
    np.sum (map (fun r => fst r * fst r) A)
      == N * K * K + K * N * (N - 1) + (N - 1) * N * (2 * N - 1) / 6 /\
    np.sum (map (fun r => fst r * snd r) A) == N * K + N * (N - 1) / 2 /\
    np.sum (map (fun r => snd r * snd r) A) == N.
Proof.
  induction n as [|n IH]; intros k; cbv zeta.
  - cbn [seq map repeat combine]. change (np.sum []) with 0.
    change (inject_Z (Z.of_nat 0)) with 0. repeat split; field.
  - cbn [seq map repeat combine fst snd]. rewrite !sum_cons.
    destruct (IH (S k)) as (E2 & E1 & E0). cbv zeta in E2, E1, E0.
    rewrite E2, E1, E0.
    rewrite !Nat2Z.inj_succ. unfold Z.succ. rewrite !inject_Z_plus.
    change (inject_Z 1) with 1. repeat split; field.
Qed.

Lemma design_gram (n : nat) :
  let N := inject_Z (Z.of_nat n) in
  g11_of_gram (np.gram (design (Z.of_nat n))) == (N - 1) * N * (2 * N - 1) / 6 /\
  g12_of_gram (np.gram (design (Z.of_nat n))) == N * (N - 1) / 2 /\
  g22_of_gram (np.gram (design (Z.of_nat n))) == N.
Proof.
  cbv zeta. unfold design, np.arange, np.gram, g11_of_gram, g12_of_gram, g22_of_gram.
  rewrite Nat2Z.id. cbn [fst snd].
  destruct (design_sums n 0) as (E2 & E1 & E0). cbv zeta in E2, E1, E0.
  rewrite E2, E1, E0. change (inject_Z (Z.of_nat 0)) with 0.
  repeat split; field.
Qed.

Lemma design_ones (H : Z) : Forall (fun r : Q * Q => snd r = 1) (design H).
Proof.
  unfold design. generalize (np.arange H) as l.
  induction (Z.to_nat H) as [|n IH]; intros [|t l]; cbn; constructor; auto.
Qed.

(** Against a column of ones, a constant right-hand side [c] gives
    [A^T y = c * (second column of A^T A)]. *)
Lemma rhs_constant (c : Q) (A : list (Q * Q)) :
  forall ys,
    length A = length ys ->
    Forall (fun r : Q * Q => snd r = 1) A ->
    Forall (fun y => y == c) ys ->
    fst (np.rhs A ys) == c * g12_of_gram (np.gram A) /\
    snd (np.rhs A ys) == c * g22_of_gram (np.gram A).
Proof.
  unfold np.rhs, np.gram, g12_of_gram, g22_of_gram. cbn [fst snd].
  induction A as [|r A IH]; intros [|y ys] Hlen Hones Hys;
    try discriminate Hlen.
  - cbn [combine map]. change (np.sum []) with 0. split; ring.
  - inversion Hones as [|? ? Hr HA]; subst.
    inversion Hys as [|? ? Hy Hrest]; subst.
    cbn [combine map fst snd]. rewrite !sum_cons.
    destruct (IH ys) as [E1 E2]; [cbn in Hlen; lia|assumption|assumption|].
    rewrite E1, E2, Hr, Hy. split; ring.
Qed.

(** With such a right-hand side [solve] returns slope zero and intercept
    [c], when [A^T A] is regular and when [A] is the single row [(0, 1)]. *)
Lemma solve_constant (s2 s1 s0 b1 b2 c : Q) :
  b1 == c * s1 -> b2 == c * s0 ->
  ~ s2 * s0 - s1 * s1 == 0 \/ (s2 == 0 /\ s1 == 0 /\ s0 == 1) ->
  fst (np.solve (s2, s1, s0) (b1, b2)) == 0 /\
  snd (np.solve (s2, s1, s0) (b1, b2)) == c.
Proof.
  intros Hb1 Hb2 Hcase. unfold np.solve.
  destruct (Qeq_bool (s2 * s0 - s1 * s1) 0) eqn:Edet.
  - apply Qeq_bool_iff in Edet.
    destruct Hcase as [Hdet|(Z2 & Z1 & Z0)]; [contradiction|].
    destruct (Qeq_bool (s2 + s0) 0) eqn:Etr.
    + apply Qeq_bool_iff in Etr. rewrite Z2, Z0 in Etr. discriminate Etr.
    + cbn [fst snd]. rewrite Hb1, Hb2, Z2, Z1, Z0. split; field.
  - assert (Hdet : ~ s2 * s0 - s1 * s1 == 0)
      by (intros E; apply Qeq_bool_iff in E; congruence).
    cbn [fst snd]. rewrite Hb1, Hb2. split; field; assumption.
Qed.

Lemma design_regular_or_single (n : nat) :
  (0 < n)%nat ->
  let g := np.gram (design (Z.of_nat n)) in
  ~ g11_of_gram g * g22_of_gram g - g12_of_gram g * g12_of_gram g == 0 \/
  (g11_of_gram g == 0 /\ g12_of_gram g == 0 /\ g22_of_gram g == 1).
Proof.
  intros Hn. cbv zeta.
  destruct (design_gram n) as (E2 & E1 & E0). cbv zeta in E2, E1, E0.
  rewrite E2, E1, E0.
  destruct n as [|[|n]]; [lia| |].
  - right. change (inject_Z (Z.of_nat 1)) with 1. repeat split; reflexivity.
  - left. rewrite !Nat2Z.inj_succ. unfold Z.succ. rewrite !inject_Z_plus.
    change (inject_Z 1) with 1.
    assert (Hm : 0 <= inject_Z (Z.of_nat n)).
    { change 0 with (inject_Z 0). rewrite <- Zle_Qle. lia. }
    set (m := inject_Z (Z.of_nat n)) in *.
    intros E.
    assert (E' : (m + 1 + 1) * (m + 1 + 1) * (m + 1) * (m + 1 + 1 + 1) == 0).
    { setoid_replace ((m + 1 + 1) * (m + 1 + 1) * (m + 1) * (m + 1 + 1 + 1))
        with (12 * ((m + 1 + 1 - 1) * (m + 1 + 1) * (2 * (m + 1 + 1) - 1) / 6
                    * (m + 1 + 1)
                    - (m + 1 + 1) * (m + 1 + 1 - 1) / 2
                      * ((m + 1 + 1) * (m + 1 + 1 - 1) / 2))) by field.
      rewrite E. ring. }
    assert (P : 0 < (m + 1 + 1) * (m + 1 + 1) * (m + 1) * (m + 1 + 1 + 1)).
    { repeat apply Qmult_lt_0_compat; lra. }
    lra.
Qed.

Lemma lstsq_constant (self : SmartTrafficManager) (lane : nat) (c : Q) :
  well_shaped self -> (0 < history_length self)%Z ->
  Forall (fun y => y == c) (lane_series self lane) ->
  let beta := np.solve (np.gram (design (history_length self)))
                       (np.rhs (design (history_length self))
                               (lane_series self lane)) in
  np.lstsq (design (history_length self)) (lane_series self lane)
    = Ok (fst beta, snd beta) /\
  fst beta == 0 /\ snd beta == c.
Proof.
  intros Hw HH Hconst beta.
  pose proof (length_lane_series self lane Hw) as Hlen.
  assert (HA : length (design (history_length self)) = length (lane_series self lane))
    by (rewrite length_design, Hlen; reflexivity).
  split.
  - unfold np.lstsq. rewrite HA, Nat.eqb_refl, <- surjective_pairing.
    reflexivity.
  - destruct (rhs_constant c _ _ HA (design_ones _) Hconst) as [Hb1 Hb2].
    assert (Hn : (0 < Z.to_nat (history_length self))%nat) by lia.
    pose proof (design_regular_or_single _ Hn) as Hcase. cbv zeta in Hcase.
    rewrite Z2Nat.id in Hcase by lia.
    subst beta.
    destruct (np.gram (design (history_length self))) as [[s2 s1] s0].
    destruct (np.rhs (design (history_length self)) (lane_series self lane))
      as [b1 b2].
    unfold g11_of_gram, g12_of_gram, g22_of_gram in *. cbn [fst snd] in *.
    now apply solve_constant.
Qed.

(** C6. When the [H >= 1] observations of a lane are all equal to [c],
    [predict_congestion] returns, [lstsq] fits the line of slope zero and
    intercept [c], and the forecast of the lane is [c] (zero for a negative
    [c]).  In particular a manager of three lanes, five rows and cycle
    length 120 that is given [10, 10, 10] in five steps in a row predicts
    [10, 10, 10] and sets the timings [40, 40, 40]. *)
Theorem constant_history_prediction
  (self : SmartTrafficManager) (lane : nat) (c : Q) :
  well_shaped self -> (0 < history_length self)%Z ->
  (lane < lanes self)%nat ->
  Forall (fun y => y == c) (lane_series self lane) ->
  (exists predicted slope intercept,
      predict_congestion self = (self, Ok predicted) /\
      np.lstsq (design (history_length self)) (lane_series self lane)
        = Ok (slope, intercept) /\
      slope == 0 /\ intercept == c /\
      nth lane predicted 0 == Qmax c 0) /\
  (exists start self' r,
      init 3 5 120 = Ok start /\
      feed 4 [10; 10; 10] start = (self', Ok r) /\
      Qlist_eq (predicted_counts r) [10; 10; 10] /\
      Qlist_eq (result_timings r) [40; 40; 40]).
Proof.
  intros Hw HH Hlane Hconst. split.
  - destruct (lstsq_constant self lane c Hw HH Hconst) as (El & Hs & Hi).
    cbv zeta in El, Hs, Hi.
    eexists. eexists. eexists.
    split; [now apply predict_congestion_ok|].
    split; [exact El|]. split; [exact Hs|]. split; [exact Hi|].
    rewrite nth_map_seq by assumption.
    unfold lane_forecast. rewrite py_max_spec.
    unfold np.dot. cbn [fst snd]. rewrite Hs, Hi.
    setoid_replace (0 * inject_Z (history_length self) + c * 1) with c by ring.
    reflexivity.
  - eexists. eexists. eexists.
    split; [reflexivity|].
    split; [vm_compute; reflexivity|].
    split; repeat (apply Forall2_cons; [reflexivity|]); apply Forall2_nil.
Qed.

Lemma steady_well_shaped : well_shaped steady.
Proof.
  unfold well_shaped, lanes, window; cbn.
  repeat split; try lia; repeat constructor.
Defined.

Lemma constant_history_prediction_witness :
  exists predicted slope intercept,
    predict_congestion steady = (steady, Ok predicted) /\
    np.lstsq (design (history_length steady)) (lane_series steady 1)
      = Ok (slope, intercept) /\
    slope == 0 /\ intercept == 10 /\
    nth 1 predicted 0 == Qmax 10 0.
Proof.
  apply (constant_history_prediction steady 1 10).
  - exact steady_well_shaped.
  - reflexivity.
  - cbn; lia.
  - repeat constructor.
Defined.

(** ** Further properties of the manager *)

Lemma optimize_signal_timings_ok (predicted : list Q) (self : SmartTrafficManager) :
  (0 < num_lanes self)%Z ->
  optimize_signal_timings predicted self =
  (set_signal_timings (allocation self predicted) self, Ok tt).
Proof.
  intros HL. unfold allocation.
  destruct (Qeq_bool (np.sum predicted) 0) eqn:E.
  - apply optimize_signal_timings_zero; [assumption|now apply Qeq_bool_iff].
  - apply optimize_signal_timings_nonzero.
    intros Hz. apply Qeq_bool_iff in Hz. congruence.
Qed.

Lemma length_allocation (self : SmartTrafficManager) (predicted : list Q) :
  length predicted = lanes self ->
  length (allocation self predicted) = lanes self.
Proof.
  intros H. unfold allocation.
  destruct (Qeq_bool (np.sum predicted) 0).
  - apply repeat_length.
  - now rewrite length_map.
Qed.

(** A step with a vector of the right length, written out: the buffer
    takes the vector in, the prediction is read off the new buffer, and the
    allocation of that prediction is stored and returned. *)
Lemma simulate_step_ok (v : list Q) (self : SmartTrafficManager) :
  well_shaped self -> (0 < history_length self)%Z ->
  length v = lanes self ->
  simulate_step v self =
  (set_signal_timings
     (allocation (set_vehicle_counts (tl (vehicle_counts self) ++ [v]) self)
        (map (lane_forecast
                (set_vehicle_counts (tl (vehicle_counts self) ++ [v]) self))
             (seq 0 (lanes self))))
     (set_vehicle_counts (tl (vehicle_counts self) ++ [v]) self),
   Ok {| latest_counts := v;
         predicted_counts :=
           map (lane_forecast
                  (set_vehicle_counts (tl (vehicle_counts self) ++ [v]) self))
               (seq 0 (lanes self));
         result_timings :=
           allocation (set_vehicle_counts (tl (vehicle_counts self) ++ [v]) self)
             (map (lane_forecast
                     (set_vehicle_counts (tl (vehicle_counts self) ++ [v]) self))
                  (seq 0 (lanes self))) |}).
Proof.
  intros Hw HH Hv.
  pose proof (update_vehicle_counts_well_shaped _ _ Hw HH Hv) as Hw1.
  unfold simulate_step, bind.
  rewrite (update_vehicle_counts_ok _ _ Hw HH Hv).
  rewrite (predict_congestion_ok _ Hw1).
  rewrite (optimize_signal_timings_ok _ _ (proj1 Hw1)).
  reflexivity.
Qed.

(** X1. The three vectors of a step have the shape of the manager, and the
    step is the composition of its parts: on a manager with [H >= 1] rows a
    step with a vector of [num_lanes] entries returns that vector, a
    prediction and a timing vector of [num_lanes] entries each; the buffer
    it leaves is the old one shifted with the vector as newest row; the
    prediction returned is the one [predict_congestion] returns on the state
    left behind, and the timings returned are the ones stored. *)
Theorem simulate_step_shape_and_composition
  (self : SmartTrafficManager) (v : list Q) :
  well_shaped self -> (0 < history_length self)%Z ->
  length v = lanes self ->
  exists self' r,
    simulate_step v self = (self', Ok r) /\
    latest_counts r = v /\
    length (predicted_counts r) = lanes self /\
    length (result_timings r) = lanes self /\
    vehicle_counts self' = tl (vehicle_counts self) ++ [v] /\
    signal_timings self' = result_timings r /\
    predict_congestion self' = (self', Ok (predicted_counts r)) /\
    num_lanes self' = num_lanes self /\
    history_length self' = history_length self /\
    cycle_length self' = cycle_length self.
Proof.
  intros Hw HH Hv.
  pose proof (update_vehicle_counts_well_shaped _ _ Hw HH Hv) as Hw1.
  eexists. eexists. split; [now apply simulate_step_ok|].
  cbn [latest_counts predicted_counts result_timings].
  assert (Hlen : length (map (lane_forecast
                   (set_vehicle_counts (tl (vehicle_counts self) ++ [v]) self))
                   (seq 0 (lanes self))) = lanes self)
    by (now rewrite length_map, length_seq).
  split; [reflexivity|]. split; [exact Hlen|].
  split.
  { exact (length_allocation
             (set_vehicle_counts (tl (vehicle_counts self) ++ [v]) self) _ Hlen). }
  split; [reflexivity|]. split; [reflexivity|].
  split; [|repeat split].
  match goal with
  | |- predict_congestion (set_signal_timings ?st ?s) = _ =>
      assert (Hw2 : well_shaped (set_signal_timings st s)) by exact Hw1;
      rewrite (predict_congestion_ok _ Hw2)
  end.
  reflexivity.
Qed.

Lemma simulate_step_shape_and_composition_witness :
  exists self' r,
    simulate_step [7; 9] two_by_two = (self', Ok r) /\
    latest_counts r = [7; 9] /\
    length (predicted_counts r) = lanes two_by_two /\
    length (result_timings r) = lanes two_by_two /\
    vehicle_counts self' = tl (vehicle_counts two_by_two) ++ [[7; 9]] /\
    signal_timings self' = result_timings r /\
    predict_congestion self' = (self', Ok (predicted_counts r)) /\
    num_lanes self' = num_lanes two_by_two /\
    history_length self' = history_length two_by_two /\
    cycle_length self' = cycle_length two_by_two.
Proof.
  apply (simulate_step_shape_and_composition two_by_two [7; 9]).
  - exact two_by_two_well_shaped.
  - reflexivity.
  - reflexivity.
Defined.

Lemma sum_positive (l : list Q) :
  Forall (fun p => 0 <= p) l -> Exists (fun p => 0 < p) l -> 0 < np.sum l.
Proof.
  intros Hnn Hex. induction Hnn as [|p l Hp Hl IH].
  - inversion Hex.
  - rewrite sum_cons. pose proof (sum_nonneg _ Hl) as Hs.
    inversion Hex as [? ? Hpos|? ? Hrest]; subst.
    + lra.
    + specialize (IH Hrest). lra.
Qed.

(** X2. The allocation does not check the length of its argument.  On any
    manager, a vector without negative entries and with a positive entry, of
    whatever length [k], makes [optimize_signal_timings] return and store
    [k] timings, entry [i] being [(predicted[i] / total) * cycle_length];
    [num_lanes] plays no part. *)
Theorem optimize_signal_timings_no_shape_check
  (self : SmartTrafficManager) (predicted : list Q) :
  Forall (fun p => 0 <= p) predicted ->
  Exists (fun p => 0 < p) predicted ->
  exists st,
    optimize_signal_timings predicted self = (set_signal_timings st self, Ok tt) /\
    length st = length predicted /\
    forall i, (i < length predicted)%nat ->
      nth i st 0 = (nth i predicted 0 / np.sum predicted) * cycle_length self.
Proof.
  intros Hnn Hex. pose proof (sum_positive _ Hnn Hex) as Hpos.
  assert (Hnz : ~ np.sum predicted == 0) by lra.
  eexists. split; [now apply optimize_signal_timings_nonzero|].
  split; [now rewrite length_map|].
  intros i Hi. now rewrite nth_map_below.
Qed.

Lemma optimize_signal_timings_no_shape_check_witness :
  exists st,
    optimize_signal_timings [3; 1] four_lanes
      = (set_signal_timings st four_lanes, Ok tt) /\
    length st = 2%nat /\
    nth 0 st 0 == 75 /\ nth 1 st 0 == 25.
Proof.
  destruct (optimize_signal_timings_no_shape_check four_lanes [3; 1])
    as (st & E & Hlen & Hnth).
  - repeat constructor; discriminate.
  - apply Exists_cons_hd. reflexivity.
  - exists st. split; [exact E|]. split; [exact Hlen|].
    rewrite (Hnth 0%nat), (Hnth 1%nat) by (cbn; lia).
    split; reflexivity.
Defined.

Lemma broadcast_row_length (w : nat) (v row : list Q) :
  np.broadcast_row w v = Ok row -> length row = w.
Proof.
  unfold np.broadcast_row.
  destruct (Nat.eqb_spec (length v) w) as [E|_].
  - intros H; injection H as <-. exact E.
  - destruct (length v =? 1)%nat; [|discriminate].
    intros H; injection H as <-. apply repeat_length.
Qed.

Lemma update_vehicle_counts_keeps_shape (v : list Q) (self : SmartTrafficManager) :
  well_shaped self -> well_shaped (fst (update_vehicle_counts v self)).
Proof.
  intros Hw. pose proof Hw as (HL & HH & Hlen & Hrows).
  rewrite update_vehicle_counts_unfold.
  destruct (vehicle_counts self) as [|r0 t0] eqn:Eb.
  - cbn. apply well_shaped_set_vehicle_counts; [assumption| |constructor].
    exact Hlen.
  - assert (Hne : r0 :: t0 <> []) by discriminate.
    assert (Hpos : (0 < history_length self)%Z).
    { unfold window in Hlen. cbn in Hlen. lia. }
    destruct (well_shaped_rows self Hw Hpos) as [_ Hlast].
    rewrite Eb in Hlast.
    assert (Htl : Forall (fun row => length row = lanes self) (tl (r0 :: t0)))
      by (now inversion Hrows).
    assert (Hsize : forall row, length (tl (r0 :: t0) ++ [row]) = window self)
      by (intros row; rewrite length_app, <- Hlen; cbn; lia).
    rewrite set_last_shift_rows by assumption.
    destruct (np.broadcast_row _ v) as [row|e] eqn:Er; cbn [fst].
    + apply well_shaped_set_vehicle_counts; [assumption|apply Hsize|].
      apply Forall_app. split; [assumption|].
      constructor; [|constructor].
      apply broadcast_row_length in Er. congruence.
    + rewrite shift_rows_nonempty by assumption.
      apply well_shaped_set_vehicle_counts; [assumption|apply Hsize|].
      apply Forall_app. split; [assumption|].
      constructor; [assumption|constructor].
Qed.

Lemma simulate_step_state (v : list Q) (self : SmartTrafficManager) :
  exists st,
    fst (simulate_step v self) =
    set_signal_timings st (fst (update_vehicle_counts v self)).
Proof.
  unfold simulate_step. unfold bind at 1.
  destruct (update_vehicle_counts v self) as [s1 [[]|e]]; cbn [fst].
  - unfold bind at 1.
    pose proof (predict_congestion_frame s1) as Hp.
    destruct (predict_congestion s1) as [s2 [p|e]]; cbn [fst] in *; subst s2.
    + unfold bind at 1.
      destruct (optimize_signal_timings_frame p s1) as [st Ho].
      destruct (optimize_signal_timings p s1) as [s3 [[]|e]];
        cbn [fst] in *; subst s3; now exists st.
    + exists (signal_timings s1). now rewrite set_signal_timings_same.
  - exists (signal_timings s1). now rewrite set_signal_timings_same.
Qed.

(** X3. The shape of the manager is an invariant: what the constructor
    returns has a positive number of lanes and a buffer of [history_length]
    rows of [num_lanes] entries, and every call of every method, returning
    or raising, on whatever argument, leaves a manager of that shape. *)
Theorem well_shaped_invariant :
  (forall L H c self, init L H c = Ok self -> well_shaped self) /\
  (forall self, well_shaped self ->
     (forall v, well_shaped (fst (update_vehicle_counts v self))) /\
     well_shaped (fst (predict_congestion self)) /\
     (forall p, well_shaped (fst (optimize_signal_timings p self))) /\
     (forall v, well_shaped (fst (simulate_step v self)))).
Proof.
  split; [exact init_well_shaped|].
  intros self Hw. split; [|split; [|split]].
  - intros v. now apply update_vehicle_counts_keeps_shape.
  - now rewrite predict_congestion_frame.
  - intros p. destruct (optimize_signal_timings_frame p self) as [st ->].
    exact Hw.
  - intros v. destruct (simulate_step_state v self) as [st ->].
    exact (update_vehicle_counts_keeps_shape v self Hw).
Qed.

Lemma well_shaped_invariant_witness :
  well_shaped (fst (update_vehicle_counts [5; 6; 7] two_by_two)) /\
  well_shaped (fst (simulate_step [5] two_by_two)).
Proof.
  destruct well_shaped_invariant as [_ Hkeep].
  destruct (Hkeep two_by_two two_by_two_well_shaped) as (Hu & _ & _ & Hs).
  split; [apply Hu|apply Hs].
Defined.

Lemma well_shaped_no_rows (self : SmartTrafficManager) :
  well_shaped self -> history_length self = 0%Z -> vehicle_counts self = [].
Proof.
  intros (_ & _ & Hlen & _) H0. unfold window in Hlen. rewrite H0 in Hlen.
  now apply length_zero_iff_nil.
Qed.

Lemma set_vehicle_counts_same (self : SmartTrafficManager) :
  set_vehicle_counts (vehicle_counts self) self = self.
Proof. destruct self; reflexivity. Qed.

Lemma map_constant_seq (x : Q) (f : nat -> Q) (n k : nat) :
  (forall i, f i = x) -> map f (seq k n) = repeat x n.
Proof.
  intros Hf. revert k. induction n as [|n IH]; intros k; cbn.
  - reflexivity.
  - now rewrite Hf, IH.
Qed.

(** X4. A manager with [history_length = 0] can be constructed but never
    stepped: every update and every step raises [IndexError], whatever the
    vector, and leaves the manager untouched; a prediction on it is the zero
    vector. *)
Theorem empty_window_never_steps (self : SmartTrafficManager) :
  well_shaped self -> history_length self = 0%Z ->
  (forall v, update_vehicle_counts v self = (self, Raise IndexError)) /\
  (forall v, simulate_step v self = (self, Raise IndexError)) /\
  predict_congestion self = (self, Ok (repeat 0 (lanes self))).
Proof.
  intros Hw H0. pose proof (well_shaped_no_rows self Hw H0) as Hb.
  assert (Hu : forall v, update_vehicle_counts v self = (self, Raise IndexError)).
  { intros v. rewrite update_vehicle_counts_unfold, Hb. cbn.
    rewrite <- Hb. now rewrite set_vehicle_counts_same. }
  split; [exact Hu|]. split.
  - intros v. unfold simulate_step, bind. now rewrite Hu.
  - rewrite (predict_congestion_ok _ Hw). f_equal. f_equal.
    apply map_constant_seq. intros lane.
    unfold lane_forecast, lane_series. rewrite H0, Hb. reflexivity.
Qed.

Lemma empty_window_never_steps_witness :
  init 4 0 120 = Ok no_history /\
  update_vehicle_counts [1; 2; 3; 4] no_history = (no_history, Raise IndexError) /\
  simulate_step [1; 2; 3; 4] no_history = (no_history, Raise IndexError) /\
  predict_congestion no_history = (no_history, Ok [0; 0; 0; 0]).
Proof.
  assert (Hw : well_shaped no_history).
  { unfold well_shaped, lanes, window; cbn. repeat split; try lia. constructor. }
  destruct (empty_window_never_steps no_history Hw eq_refl) as (Hu & Hs & Hp).
  split; [reflexivity|]. split; [apply Hu|]. split; [apply Hs|exact Hp].
Defined.

(** X5. A vector of one entry is taken for a full vector: on a manager with
    [H >= 1] rows a step with [[x]] leaves the state and returns the
    prediction and the timings of the step with [x] repeated in every lane;
    only the echoed input differs. *)
Theorem one_entry_vector_is_broadcast (self : SmartTrafficManager) (x : Q) :
  well_shaped self -> (0 < history_length self)%Z ->
  exists self' r,
    simulate_step (repeat x (lanes self)) self = (self', Ok r) /\
    simulate_step [x] self =
      (self', Ok {| latest_counts := [x];
                    predicted_counts := predicted_counts r;
                    result_timings := result_timings r |}) /\
    update_vehicle_counts [x] self =
      update_vehicle_counts (repeat x (lanes self)) self.
Proof.
  intros Hw HH.
  assert (Hv : length (repeat x (lanes self)) = lanes self) by apply repeat_length.
  pose proof (update_vehicle_counts_well_shaped _ _ Hw HH Hv) as Hw1.
  eexists. eexists. split; [now apply simulate_step_ok|]. split.
  - unfold simulate_step, bind.
    rewrite (update_vehicle_counts_broadcast x self Hw HH).
    rewrite (predict_congestion_ok _ Hw1).
    rewrite (optimize_signal_timings_ok _ _ (proj1 Hw1)).
    reflexivity.
  - rewrite (update_vehicle_counts_broadcast x self Hw HH).
    now rewrite (update_vehicle_counts_ok _ _ Hw HH Hv).
Qed.

Lemma one_entry_vector_is_broadcast_witness :
  exists self' r,
    simulate_step [7; 7] two_by_two = (self', Ok r) /\
    simulate_step [7] two_by_two =
      (self', Ok {| latest_counts := [7];
                    predicted_counts := predicted_counts r;
                    result_timings := result_timings r |}) /\
    update_vehicle_counts [7] two_by_two = update_vehicle_counts [7; 7] two_by_two.
Proof.
  apply (one_entry_vector_is_broadcast two_by_two 7).
  - exact two_by_two_well_shaped.
  - reflexivity.
Defined.

Lemma simulate_all_ok (vs : list (list Q)) :
  forall self,
    well_shaped self -> (0 < history_length self)%Z ->
    Forall (fun v => length v = lanes self) vs ->
    exists self' rs,
      simulate_all vs self = (self', Ok rs) /\
      length rs = length vs /\
      well_shaped self' /\
      same_configuration self' self /\
      vehicle_counts self' = skipn (length vs) (vehicle_counts self ++ vs) /\
      (vs <> [] ->
       settled self' /\
       forall d,
         last rs d =
         {| latest_counts := last vs [];
            predicted_counts := map (lane_forecast self') (seq 0 (lanes self'));
            result_timings := signal_timings self' |}).
Proof.
  induction vs as [|v rest IH]; intros self Hw HH Hvs.
  - exists self, []. cbn [simulate_all length skipn]. rewrite app_nil_r.
    split; [reflexivity|]. split; [reflexivity|]. split; [assumption|].
    split; [repeat split|]. split; [reflexivity|].
    intros Hne. now contradiction Hne.
  - inversion Hvs as [|? ? Hv Hrest]; subst.
    pose proof (update_vehicle_counts_well_shaped _ _ Hw HH Hv) as Hw1.
    pose proof (simulate_step_ok v self Hw HH Hv) as Estep.
    set (p1 := map (lane_forecast
                      (set_vehicle_counts (tl (vehicle_counts self) ++ [v]) self))
                   (seq 0 (lanes self))) in *.
    set (s1 := set_signal_timings
                 (allocation
                    (set_vehicle_counts (tl (vehicle_counts self) ++ [v]) self) p1)
                 (set_vehicle_counts (tl (vehicle_counts self) ++ [v]) self)) in *.
    assert (Hw2 : well_shaped s1) by exact Hw1.
    destruct (IH s1 Hw2 HH Hrest)
      as (self' & rs & E & Hlen & Hw' & Hcfg & Hvc & Hlast).
    exists self'. eexists. cbn [simulate_all]. unfold bind at 1.
    rewrite Estep. unfold bind at 1. rewrite E. unfold ret.
    split; [reflexivity|].
    split; [cbn; now rewrite Hlen|].
    split; [exact Hw'|]. split; [exact Hcfg|]. split.
    + rewrite Hvc. cbn [s1 set_signal_timings set_vehicle_counts vehicle_counts length].
      destruct (well_shaped_rows self Hw HH) as [Hne _].
      destruct (vehicle_counts self) as [|r0 t0]; [contradiction|].
      cbn [tl app skipn]. now rewrite <- app_assoc.
    + intros _. destruct rest as [|v' rest'].
      * cbn in E. unfold ret in E. injection E as <- <-.
        split; [reflexivity|]. intros d. reflexivity.
      * destruct Hlast as [Hset Hl]; [discriminate|].
        split; [exact Hset|]. intros d.
        destruct rs as [|r' rs']; [discriminate Hlen|].
        change (last (v :: v' :: rest') []) with (last (v' :: rest') []).
        rewrite <- (Hl d). reflexivity.
Qed.

Lemma settled_determined (a b : SmartTrafficManager) :
  same_configuration a b -> vehicle_counts a = vehicle_counts b ->
  settled a -> settled b -> a = b.
Proof.
  intros (HL & HH & Hc) Hvc Ha Hb.
  unfold settled, allocation, lane_forecast, lane_series, lanes in *.
  destruct a, b; cbn in *. subst. reflexivity.
Qed.

(** X6. The manager forgets: two managers of one configuration, whatever
    their buffers and timings, that are given the same [n >= H] vectors in
    steps end in the same state, whose buffer is the last [H] vectors given,
    and return the same last result. *)
Theorem past_is_forgotten_after_window
  (self1 self2 : SmartTrafficManager) (vs : list (list Q)) :
  well_shaped self1 -> well_shaped self2 ->
  same_configuration self1 self2 ->
  (0 < history_length self1)%Z ->
  Forall (fun v => length v = lanes self1) vs ->
  (window self1 <= length vs)%nat ->
  exists self' rs1 rs2,
    simulate_all vs self1 = (self', Ok rs1) /\
    simulate_all vs self2 = (self', Ok rs2) /\
    vehicle_counts self' = skipn (length vs - window self1) vs /\
    forall d, last rs1 d = last rs2 d.
Proof.
  intros Hw1 Hw2 Hcfg HH Hvs Hn.
  pose proof Hcfg as (HL & HHe & Hc).
  assert (HH2 : (0 < history_length self2)%Z) by now rewrite <- HHe.
  assert (Hvs2 : Forall (fun v => length v = lanes self2) vs)
    by (unfold lanes in *; now rewrite <- HL).
  destruct (simulate_all_ok vs self1 Hw1 HH Hvs)
    as (s1 & rs1 & E1 & _ & _ & Hc1 & Hb1 & Hl1).
  destruct (simulate_all_ok vs self2 Hw2 HH2 Hvs2)
    as (s2 & rs2 & E2 & _ & _ & Hc2 & Hb2 & Hl2).
  assert (Hne : vs <> []).
  { intros ->. cbn in Hn. unfold window in Hn. lia. }
  destruct (Hl1 Hne) as [Hs1 Hlast1]. destruct (Hl2 Hne) as [Hs2 Hlast2].
  pose proof Hw1 as (_ & _ & Hlen1 & _). pose proof Hw2 as (_ & _ & Hlen2 & _).
  assert (Hwin : window self2 = window self1) by (unfold window; now rewrite HHe).
  assert (Hskip : forall b, length b = window self1 ->
            skipn (length vs) (b ++ vs) = skipn (length vs - window self1) vs).
  { intros b Hb. rewrite skipn_app, skipn_all2 by lia. now rewrite Hb. }
  rewrite (Hskip _ Hlen1) in Hb1.
  rewrite (Hskip _ (eq_trans Hlen2 Hwin)) in Hb2.
  assert (Es : s1 = s2).
  { apply settled_determined; try assumption; [|congruence].
    destruct Hc1 as (A1 & A2 & A3). destruct Hc2 as (B1 & B2 & B3).
    unfold same_configuration. repeat split; congruence. }
  subst s2. exists s1, rs1, rs2.
  split; [exact E1|]. split; [exact E2|]. split; [exact Hb1|].
  intros d. now rewrite Hlast1, Hlast2.
Qed.

Lemma past_is_forgotten_after_window_witness :
  exists self' rs1 rs2,
    simulate_all [[5; 6]; [7; 8]] two_by_two = (self', Ok rs1) /\
    simulate_all [[5; 6]; [7; 8]]
      (set_signal_timings [1; 119] (set_vehicle_counts [[9; 9]; [0; 2]] two_by_two))
      = (self', Ok rs2) /\
    vehicle_counts self' = [[5; 6]; [7; 8]] /\
    forall d, last rs1 d = last rs2 d.
Proof.
  apply (past_is_forgotten_after_window two_by_two
           (set_signal_timings [1; 119]
              (set_vehicle_counts [[9; 9]; [0; 2]] two_by_two))
           [[5; 6]; [7; 8]]).
  - exact two_by_two_well_shaped.
  - unfold well_shaped, lanes, window; cbn.
    repeat split; try lia; repeat constructor.
  - repeat split.
  - reflexivity.
  - repeat constructor.
  - cbn. lia.
Defined.




(** X8. A lane with the larger prediction never gets the shorter green:
    for a prediction without negative entries, one entry per lane, and a
    cycle length that is not negative, the stored timings are ordered as the
    predictions are. *)
Theorem allocation_monotone
  (self : SmartTrafficManager) (predicted : list Q) (i j : nat) :
  (0 < num_lanes self)%Z -> 0 <= cycle_length self ->
  length predicted = lanes self ->
  Forall (fun p => 0 <= p) predicted ->
  (i < lanes self)%nat -> (j < lanes self)%nat ->
  nth i predicted 0 <= nth j predicted 0 ->
  exists st,
    optimize_signal_timings predicted self = (set_signal_timings st self, Ok tt) /\
    nth i st 0 <= nth j st 0.
Proof.
  intros HL Hc Hlen Hp Hi Hj Hij. eexists.
  split; [now apply optimize_signal_timings_ok|].
  unfold allocation.
  destruct (Qeq_bool (np.sum predicted) 0) eqn:E.
  - rewrite !nth_repeat_below by assumption. apply Qle_refl.
  - assert (Hnz : ~ np.sum predicted == 0)
      by (intros Hz; apply Qeq_bool_iff in Hz; congruence).
    pose proof (sum_nonneg _ Hp) as Hs.
    assert (Hpos : 0 < np.sum predicted) by lra.
    rewrite !nth_map_below by lia.
    apply Qmult_le_compat_r; [|assumption].
    unfold Qdiv. apply Qmult_le_compat_r; [assumption|].
    apply Qlt_le_weak. now apply Qinv_lt_0_compat.
Qed.

Lemma allocation_monotone_witness :
  exists st,
    optimize_signal_timings [30; 10; 0; 0] four_lanes
      = (set_signal_timings st four_lanes, Ok tt) /\
    nth 1 st 0 <= nth 0 st 0.
Proof.
  apply (allocation_monotone four_lanes [30; 10; 0; 0] 1 0).
  - reflexivity.
  - discriminate.
  - reflexivity.
  - repeat constructor; discriminate.
  - cbn; lia.
  - cbn; lia.
  - discriminate.
Defined.

(** X9. The forecast of a lane is a function of the column of that lane
    and of the length of the window: two managers with the same
    [history_length] and the same observations in a lane forecast the same
    value for it, whatever their other lanes, timings and cycle lengths. *)
Theorem forecast_of_lane_alone (a b : SmartTrafficManager) (lane : nat) :
  well_shaped a -> well_shaped b ->
  history_length a = history_length b ->
  (lane < lanes a)%nat -> (lane < lanes b)%nat ->
  lane_series a lane = lane_series b lane ->
  exists pa pb,
    predict_congestion a = (a, Ok pa) /\
    predict_congestion b = (b, Ok pb) /\
    nth lane pa 0 = nth lane pb 0.
Proof.
  intros Ha Hb HH La Lb Hs. eexists. eexists.
  split; [now apply predict_congestion_ok|].
  split; [now apply predict_congestion_ok|].
  rewrite !nth_map_seq by assumption.
  unfold lane_forecast. now rewrite HH, Hs.
Qed.

Lemma forecast_of_lane_alone_witness :
  exists pa pb,
    predict_congestion two_by_two = (two_by_two, Ok pa) /\
    predict_congestion (set_vehicle_counts [[1; 50]; [3; 0]] two_by_two)
      = (set_vehicle_counts [[1; 50]; [3; 0]] two_by_two, Ok pb) /\
    nth 0 pa 0 = nth 0 pb 0.
Proof.
  apply (forecast_of_lane_alone two_by_two
           (set_vehicle_counts [[1; 50]; [3; 0]] two_by_two) 0).
  - exact two_by_two_well_shaped.
  - unfold well_shaped, lanes, window; cbn.
    repeat split; try lia; repeat constructor.
  - reflexivity.
  - cbn; lia.
  - cbn; lia.
  - reflexivity.
Defined.

(** ** More on the fitted line *)

Lemma lane_forecast_rows (self : SmartTrafficManager) (lane : nat) :
  well_shaped self ->
  lane_forecast self lane =
  py_max (np.dot
            (np.solve
               (g11 (combine (design (history_length self)) (lane_series self lane)),
                g12 (combine (design (history_length self)) (lane_series self lane)),
                g22 (combine (design (history_length self)) (lane_series self lane)))
               (h1 (combine (design (history_length self)) (lane_series self lane)),
                h2 (combine (design (history_length self)) (lane_series self lane))))
            (inject_Z (history_length self), 1))
         0.
Proof.
  intros Hw. unfold lane_forecast.
  rewrite (gram_combine (design (history_length self)) (lane_series self lane)).
  - reflexivity.
  - rewrite length_design, (length_lane_series self lane Hw). reflexivity.
Qed.

Lemma design_rows_gram (H : Z) (ys : list Q) :
  (0 <= H)%Z -> length ys = Z.to_nat H ->
  g11 (combine (design H) ys)
    == (inject_Z H - 1) * inject_Z H * (2 * inject_Z H - 1) / 6 /\
  g12 (combine (design H) ys) == inject_Z H * (inject_Z H - 1) / 2 /\
  g22 (combine (design H) ys) == inject_Z H.
Proof.
  intros HH Hlen.
  pose proof (design_gram (Z.to_nat H)) as Hg. cbv zeta in Hg.
  rewrite Z2Nat.id in Hg by lia.
  rewrite (gram_combine (design H) ys) in Hg
    by (rewrite length_design; now symmetry).
  exact Hg.
Qed.

Lemma design_rows_regular (H : Z) (ys : list Q) :
  (2 <= H)%Z -> length ys = Z.to_nat H ->
  0 < g11 (combine (design H) ys) * g22 (combine (design H) ys)
      - g12 (combine (design H) ys) * g12 (combine (design H) ys) /\
  0 < g22 (combine (design H) ys).
Proof.
  intros HH Hlen.
  destruct (design_rows_gram H ys) as (E11 & E12 & E22); [lia|assumption|].
  rewrite E11, E12, E22.
  assert (HN : 2 <= inject_Z H).
  { change 2 with (inject_Z 2). rewrite <- Zle_Qle. exact HH. }
  set (N := inject_Z H) in *. clearbody N. split; [|lra].
  setoid_replace ((N - 1) * N * (2 * N - 1) / 6 * N - N * (N - 1) / 2 * (N * (N - 1) / 2))
    with (N * N * (N - 1) * (N + 1) * (1 # 12)) by field.
  repeat apply Qmult_lt_0_compat; lra.
Qed.

(** When [A^T A] is regular the normal equations have one solution, the
    one [solve] returns. *)
Lemma solve_unique (T : list (Q * Q * Q)) (x : Q * Q) :
  ~ g11 T * g22 T - g12 T * g12 T == 0 ->
  normal_equations T x ->
  fst (np.solve (g11 T, g12 T, g22 T) (h1 T, h2 T)) == fst x /\
  snd (np.solve (g11 T, g12 T, g22 T) (h1 T, h2 T)) == snd x.
Proof.
  intros Hdet [N1 N2]. unfold np.solve.
  destruct (Qeq_bool (g11 T * g22 T - g12 T * g12 T) 0) eqn:E.
  - apply Qeq_bool_iff in E. contradiction.
  - cbn [fst snd]. rewrite <- N1, <- N2. split; field; assumption.
Qed.

(** Observations that lie on a line satisfy the normal equations of that
    line. *)
Lemma exact_model_normal (a b : Q) (T : list (Q * Q * Q)) :
  Forall (fun ry => snd ry == a * fst (fst ry) + b * snd (fst ry)) T ->
  normal_equations T (a, b).
Proof.
  unfold normal_equations, g11, g12, g22, h1, h2. cbn [fst snd].
  induction 1 as [|ry l Hry _ [IH1 IH2]]; cbn [map].
  - change (np.sum []) with 0. split; ring.
  - rewrite !sum_cons, <- IH1, <- IH2, Hry. split; ring.
Qed.

Lemma design_rows_on_line (a b : Q) (ys : list Q) :
  forall k,
    (forall i, (i < length ys)%nat ->
       nth i ys 0 == a * inject_Z (Z.of_nat (k + i)) + b) ->
    Forall (fun ry => snd ry == a * fst (fst ry) + b * snd (fst ry))
      (combine (combine (map (fun t => inject_Z (Z.of_nat t)) (seq k (length ys)))
                        (repeat 1 (length ys))) ys).
Proof.
  induction ys as [|y ys IH]; intros k Hline.
  - constructor.
  - cbn [length seq map repeat combine]. constructor.
    + cbn [fst snd]. specialize (Hline 0%nat). cbn [nth] in Hline.
      rewrite Nat.add_0_r in Hline. rewrite Hline by (cbn; lia). ring.
    + apply IH. intros i Hi. specialize (Hline (S i)). cbn [nth] in Hline.
      rewrite Nat.add_succ_r in Hline. apply Hline. cbn. lia.
Qed.

(** X10. A linear trend is recognised.  When the [H >= 2] observations of
    a lane lie on the line [a * t + b], the line [lstsq] fits, in exact
    arithmetic, is that line, and the forecast of the lane is its value
    [a * H + b] at the next step, or zero when that value is negative.  The
    floating-point [lstsq] returns the line up to its rounding error, so the
    code's forecast is this value up to rounding; where [a * H + b] is
    zero it can be a small positive number instead. *)
Theorem linear_trend_extrapolated
  (self : SmartTrafficManager) (lane : nat) (a b : Q) :
  well_shaped self -> (2 <= history_length self)%Z ->
  (lane < lanes self)%nat ->
  (forall t, (t < window self)%nat ->
     nth t (lane_series self lane) 0 == a * inject_Z (Z.of_nat t) + b) ->
  exists predicted slope intercept,
    predict_congestion self = (self, Ok predicted) /\
    np.lstsq (design (history_length self)) (lane_series self lane)
      = Ok (slope, intercept) /\
    slope == a /\ intercept == b /\
    nth lane predicted 0 == Qmax (a * inject_Z (history_length self) + b) 0.
Proof.
  intros Hw HH Hlane Hline.
  pose proof (length_lane_series self lane Hw) as Hlen.
  assert (HA : length (design (history_length self)) = length (lane_series self lane))
    by (rewrite length_design, Hlen; reflexivity).
  set (T := combine (design (history_length self)) (lane_series self lane)).
  set (beta := np.solve (g11 T, g12 T, g22 T) (h1 T, h2 T)).
  assert (El : np.lstsq (design (history_length self)) (lane_series self lane)
               = Ok (fst beta, snd beta)).
  { unfold np.lstsq. rewrite HA, Nat.eqb_refl, (gram_combine _ _ HA).
    change (np.rhs (design (history_length self)) (lane_series self lane))
      with (h1 T, h2 T).
    fold T. fold beta. now rewrite <- surjective_pairing. }
  assert (Hn : normal_equations T (a, b)).
  { apply exact_model_normal. unfold T, design, np.arange.
    unfold window in Hlen. rewrite <- Hlen.
    apply design_rows_on_line. intros i Hi. cbn [Nat.add].
    apply Hline. unfold window. lia. }
  destruct (design_rows_regular (history_length self) (lane_series self lane))
    as [Hdet _]; [assumption|exact Hlen|]. fold T in Hdet.
  destruct (solve_unique T (a, b)) as [E1 E2]; [lra|exact Hn|].
  fold beta in E1, E2. cbn [fst snd] in E1, E2.
  eexists. exists (fst beta), (snd beta).
  split; [now apply predict_congestion_ok|].
  split; [exact El|]. split; [exact E1|]. split; [exact E2|].
  rewrite nth_map_seq by assumption.
  rewrite (lane_forecast_rows self lane Hw), py_max_spec.
  fold T. fold beta. unfold np.dot. cbn [fst snd].
  rewrite E1, E2.
  setoid_replace (a * inject_Z (history_length self) + b * 1)
    with (a * inject_Z (history_length self) + b) by ring.
  reflexivity.
Qed.

Lemma linear_trend_extrapolated_witness :
  exists predicted slope intercept,
    predict_congestion two_by_two = (two_by_two, Ok predicted) /\
    np.lstsq (design (history_length two_by_two)) (lane_series two_by_two 1)
      = Ok (slope, intercept) /\
    slope == 2 /\ intercept == 2 /\
    nth 1 predicted 0 == Qmax (2 * inject_Z (history_length two_by_two) + 2) 0.
Proof.
  apply (linear_trend_extrapolated two_by_two 1 2 2).
  - exact two_by_two_well_shaped.
  - cbn; lia.
  - cbn; lia.
  - intros [|[|t]] Ht; [reflexivity|reflexivity|].
    unfold window in Ht. cbn in Ht. lia.
Defined.

Lemma square_nonneg (x : Q) : 0 <= x * x.
Proof. nra. Qed.

Lemma definite_zero (s2 s1 s0 d1 d2 : Q) :
  0 < s2 * s0 - s1 * s1 -> 0 < s0 ->
  d1 * d1 * s2 + 2 * d1 * d2 * s1 + d2 * d2 * s0 == 0 ->
  d1 == 0 /\ d2 == 0.
Proof.
  intros Hdet Hs0 Hq.
  assert (Hid : s0 * (d1 * d1 * s2 + 2 * d1 * d2 * s1 + d2 * d2 * s0)
                == (s0 * d2 + s1 * d1) * (s0 * d2 + s1 * d1)
                   + (s2 * s0 - s1 * s1) * (d1 * d1)) by ring.
  rewrite Hq in Hid.
  pose proof (square_nonneg (s0 * d2 + s1 * d1)) as Hsq.
  pose proof (square_nonneg d1) as Hd1.
  assert (Hprod : (s2 * s0 - s1 * s1) * (d1 * d1) <= 0) by lra.
  assert (Z1 : d1 * d1 == 0).
  { destruct (Qlt_le_dec 0 (d1 * d1)) as [Hpos|Hle]; [|lra].
    pose proof (Qmult_lt_0_compat _ _ Hdet Hpos). lra. }
  apply Qmult_integral in Z1.
  assert (E1 : d1 == 0) by tauto.
  split; [exact E1|].
  rewrite E1 in Hq.
  assert (Z2 : s0 * (d2 * d2) == 0) by (rewrite <- Hq; ring).
  apply Qmult_integral in Z2. destruct Z2 as [Z2|Z2]; [lra|].
  apply Qmult_integral in Z2. tauto.
Qed.

(** X11. For a window of two rows or more the least-squares line is
    unique: every line that has the least sum of squared errors against the
    observations of a lane is the line [lstsq] returns, so the forecast of
    the lane is the value of any such line at [t = H], clamped at zero. *)
Theorem least_squares_line_unique
  (self : SmartTrafficManager) (lane : nat) (a b : Q) :
  well_shaped self -> (2 <= history_length self)%Z ->
  (lane < lanes self)%nat ->
  least_squares_fit (lane_series self lane) a b ->
  exists predicted slope intercept,
    predict_congestion self = (self, Ok predicted) /\
    np.lstsq (design (history_length self)) (lane_series self lane)
      = Ok (slope, intercept) /\
    a == slope /\ b == intercept /\
    nth lane predicted 0 == Qmax (a * inject_Z (history_length self) + b) 0.
Proof.
  intros Hw HH Hlane Hfit.
  pose proof (length_lane_series self lane Hw) as Hlen.
  assert (HA : length (design (history_length self)) = length (lane_series self lane))
    by (rewrite length_design, Hlen; reflexivity).
  set (T := combine (design (history_length self)) (lane_series self lane)).
  set (beta := np.solve (g11 T, g12 T, g22 T) (h1 T, h2 T)).
  assert (El : np.lstsq (design (history_length self)) (lane_series self lane)
               = Ok (fst beta, snd beta)).
  { unfold np.lstsq. rewrite HA, Nat.eqb_refl, (gram_combine _ _ HA).
    change (np.rhs (design (history_length self)) (lane_series self lane))
      with (h1 T, h2 T).
    fold T. fold beta. now rewrite <- surjective_pairing. }
  destruct (solve_normal_equations T) as [N1 N2]. fold beta in N1, N2.
  destruct (design_rows_regular (history_length self) (lane_series self lane))
    as [Hdet Hs0]; [assumption|exact Hlen|]. fold T in Hdet, Hs0.
  assert (Hle : residual (design (history_length self)) (lane_series self lane) (a, b)
                <= residual (design (history_length self)) (lane_series self lane)
                     (fst beta, snd beta)).
  { rewrite !(residual_design (history_length self)) by exact Hlen. apply Hfit. }
  unfold residual in Hle. fold T in Hle.
  rewrite (residual_split T (fst beta, snd beta) (a, b)) in Hle.
  cbn [fst snd] in Hle.
  pose proof (combination_squares T (a - fst beta) (b - snd beta)) as Hsq.
  pose proof (sum_squares_nonneg
                (fun ry : Q * Q * Q =>
                   (a - fst beta) * fst (fst ry) + (b - snd beta) * snd (fst ry)) T)
    as Hpos.
  cbv beta in Hpos.
  assert (Hzero : (a - fst beta) * (a - fst beta) * g11 T
                  + 2 * (a - fst beta) * (b - snd beta) * g12 T
                  + (b - snd beta) * (b - snd beta) * g22 T == 0).
  { rewrite <- Hsq.
    setoid_replace (g11 T * fst beta + g12 T * snd beta - h1 T) with 0 in Hle
      by (rewrite N1; ring).
    setoid_replace (g12 T * fst beta + g22 T * snd beta - h2 T) with 0 in Hle
      by (rewrite N2; ring).
    lra. }
  destruct (definite_zero _ _ _ _ _ Hdet Hs0 Hzero) as [D1 D2].
  assert (Ea : a == fst beta) by lra.
  assert (Eb : b == snd beta) by lra.
  eexists. exists (fst beta), (snd beta).
  split; [now apply predict_congestion_ok|].
  split; [exact El|]. split; [exact Ea|]. split; [exact Eb|].
  rewrite nth_map_seq by assumption.
  rewrite (lane_forecast_rows self lane Hw), py_max_spec.
  fold T. fold beta. unfold np.dot. cbn [fst snd]. rewrite Ea, Eb.
  setoid_replace (fst beta * inject_Z (history_length self) + snd beta * 1)
    with (fst beta * inject_Z (history_length self) + snd beta) by ring.
  reflexivity.
Qed.

Lemma least_squares_line_unique_witness :
  exists predicted slope intercept,
    predict_congestion two_by_two = (two_by_two, Ok predicted) /\
    np.lstsq (design (history_length two_by_two)) (lane_series two_by_two 0)
      = Ok (slope, intercept) /\
    2 == slope /\ 1 == intercept /\
    nth 0 predicted 0 == Qmax (2 * inject_Z (history_length two_by_two) + 1) 0.
Proof.
  apply (least_squares_line_unique two_by_two 0 2 1).
  - exact two_by_two_well_shaped.
  - cbn; lia.
  - cbn; lia.
  - intros slope' intercept'. unfold lane_series, two_by_two. cbn.
    change (inject_Z 0) with 0. change (inject_Z 1) with 1.
    pose proof (square_nonneg (slope' * 0 + intercept' - 1)) as S0.
    pose proof (square_nonneg (slope' * 1 + intercept' - 3)) as S1.
    setoid_replace ((2 * 0 + 1 - 1) * (2 * 0 + 1 - 1)
                    + ((2 * 1 + 1 - 3) * (2 * 1 + 1 - 3) + 0)) with 0 by ring.
    lra.
Defined.

Lemma nth_Forall_default (P : Q -> Prop) (d : Q) (l : list Q) (i : nat) :
  P d -> Forall P l -> P (nth i l d).
Proof.
  intros Hd Hl. revert i.
  induction Hl as [|x l Hx _ IH]; intros [|i]; cbn; auto.
Qed.

(** X12. A history of zeros gives the equal split: when every entry of the
    buffer is zero, as after the construction, the prediction is zero in
    every lane and the allocation of that prediction is
    [cycle_length / num_lanes] in every lane. *)
Theorem all_zero_history_equal_split (self : SmartTrafficManager) :
  well_shaped self ->
  Forall (Forall (fun x => x == 0)) (vehicle_counts self) ->
  exists predicted,
    predict_congestion self = (self, Ok predicted) /\
    length predicted = lanes self /\
    Forall (fun p => p == 0) predicted /\
    optimize_signal_timings predicted self =
      (set_signal_timings
         (repeat (cycle_length self / inject_Z (num_lanes self)) (lanes self)) self,
       Ok tt).
Proof.
  intros Hw Hzero.
  assert (Hp : Forall (fun p => p == 0) (map (lane_forecast self) (seq 0 (lanes self)))).
  { apply Forall_forall. intros p Hin. apply in_map_iff in Hin.
    destruct Hin as (lane & <- & _).
    destruct (Z.eq_dec (history_length self) 0) as [H0|Hn0].
    - pose proof (well_shaped_no_rows self Hw H0) as Hb.
      unfold lane_forecast, lane_series. rewrite H0, Hb. reflexivity.
    - assert (HH : (0 < history_length self)%Z)
        by (destruct Hw as (_ & Hge & _); lia).
      assert (Hconst : Forall (fun y => y == 0) (lane_series self lane)).
      { unfold lane_series. apply Forall_forall. intros y Hy.
        apply in_map_iff in Hy. destruct Hy as (row & <- & Hrow).
        rewrite Forall_forall in Hzero.
        apply nth_Forall_default; [reflexivity|now apply Hzero]. }
      destruct (lstsq_constant self lane 0 Hw HH Hconst) as (_ & Hs & Hi).
      cbv zeta in Hs, Hi.
      unfold lane_forecast. rewrite py_max_spec.
      unfold np.dot. cbn [fst snd]. rewrite Hs, Hi.
      setoid_replace (0 * inject_Z (history_length self) + 0 * 1) with 0 by ring.
      reflexivity. }
  eexists. split; [now apply predict_congestion_ok|].
  split; [now rewrite length_map, length_seq|].
  split; [exact Hp|].
  apply optimize_signal_timings_zero; [exact (proj1 Hw)|].
  clear -Hp. induction Hp as [|p l Hp0 _ IH].
  - reflexivity.
  - rewrite sum_cons, IH, Hp0. ring.
Qed.

Lemma all_zero_history_equal_split_witness :
  exists predicted,
    predict_congestion four_lanes = (four_lanes, Ok predicted) /\
    length predicted = lanes four_lanes /\
    Forall (fun p => p == 0) predicted /\
    optimize_signal_timings predicted four_lanes =
      (set_signal_timings
         (repeat (cycle_length four_lanes / inject_Z (num_lanes four_lanes))
                 (lanes four_lanes)) four_lanes,
       Ok tt).
Proof.
  apply (all_zero_history_equal_split four_lanes).
  - unfold well_shaped, lanes, window; cbn.
    repeat split; try lia; repeat constructor.
  - repeat constructor.
Defined.

(** ** The driver *)

Lemma started_running (m : SmartTrafficManager) (n : Z) (draw : list Q)
  (gui : GUI.TrafficGUI) :
  (0 < n)%Z -> init n 10 120 = Ok m ->
  randint_draw 10 25 n draw -> (0 <= GUI.time_step gui)%Z ->
  running n (GUI.started m n draw gui).
Proof.
  intros Hn Em Hdraw Ht. exists m, draw. cbn.
  pose proof (init_well_shaped _ _ _ _ Em) as Hw.
  rewrite init_ok in Em by lia. injection Em as <-. cbn.
  split; [reflexivity|]. split; [reflexivity|]. split; [reflexivity|].
  split; [exact Hw|]. split; [reflexivity|]. split; [lia|].
  split; assumption.
Qed.

(** X13. The driver never constructs an invalid manager.  When the entry
    is a positive integer [n], [start_simulation] installs a new manager of
    [n] lanes with the default window of 10 rows and cycle of 120 seconds,
    with zero buffer and equal split, enables the execute button and
    disables the chart button; the step counter and the histories are kept
    as they are.  When the entry is no integer or not positive, it shows the
    error dialog and changes nothing else.  It never leaves through an
    exception. *)
Theorem start_simulation_guard
  (entry : option Z) (draw : list Q) (gui : GUI.TrafficGUI) :
  (forall n, entry = Some n -> (0 < n)%Z ->
     exists m,
       init n 10 120 = Ok m /\
       GUI.start_simulation entry draw gui = (GUI.started m n draw gui, GUI.Returned tt) /\
       well_shaped m /\
       vehicle_counts m = repeat (repeat 0 (Z.to_nat n)) 10 /\
       signal_timings m = repeat (120 / inject_Z n) (Z.to_nat n) /\
       GUI.time_step (GUI.started m n draw gui) = GUI.time_step gui /\
       GUI.latest_counts_list (GUI.started m n draw gui) = GUI.latest_counts_list gui /\
       GUI.execute_button (GUI.started m n draw gui) = GUI.NORMAL /\
       GUI.plot_button (GUI.started m n draw gui) = GUI.DISABLED) /\
  ((entry = None \/ exists n, entry = Some n /\ (n <= 0)%Z) ->
     GUI.start_simulation entry draw gui = (GUI.show_error gui, GUI.Returned tt) /\
     GUI.manager (GUI.show_error gui) = GUI.manager gui) /\
  snd (GUI.start_simulation entry draw gui) = GUI.Returned tt.
Proof.
  split; [|split].
  - intros n -> Hn. eexists. split; [apply init_ok; lia|].
    split.
    + unfold GUI.start_simulation.
      destruct (Z.leb_spec n 0); [lia|]. now rewrite init_ok by lia.
    + split; [apply (init_well_shaped n 10 120); apply init_ok; lia|].
      cbn. repeat split.
  - intros [->|(n & -> & Hn)]; cbn.
    + split; reflexivity.
    + unfold GUI.start_simulation.
      destruct (Z.leb_spec n 0); [|lia]. split; reflexivity.
  - unfold GUI.start_simulation. destruct entry as [n|]; [|reflexivity].
    destruct (Z.leb_spec n 0); [reflexivity|]. now rewrite init_ok by lia.
Qed.

Lemma start_simulation_guard_witness :
  (exists m,
     init 2 10 120 = Ok m /\
     GUI.start_simulation (Some 2%Z) [12; 20] GUI.initial
       = (GUI.started m 2 [12; 20] GUI.initial, GUI.Returned tt)) /\
  GUI.start_simulation (Some (-3)%Z) [] GUI.initial
    = (GUI.show_error GUI.initial, GUI.Returned tt).
Proof.
  split.
  - destruct (start_simulation_guard (Some 2%Z) [12; 20] GUI.initial) as [Hpos _].
    destruct (Hpos 2%Z eq_refl eq_refl) as (m & Em & Es & _).
    exists m. split; [exact Em|exact Es].
  - destruct (start_simulation_guard (Some (-3)%Z) [] GUI.initial) as (_ & Hneg & _).
    destruct Hneg as [E _]; [|exact E].
    right. exists (-3)%Z. split; [reflexivity|lia].
Defined.

Lemma histories_agree_recorded (m : SmartTrafficManager) (r : StepResult)
  (gui : GUI.TrafficGUI) :
  histories_agree gui -> histories_agree (GUI.recorded m r gui).
Proof.
  intros (Ht & H1 & H2 & H3 & H4). unfold histories_agree. cbn.
  assert (E : Z.to_nat (GUI.time_step gui + 1) = S (Z.to_nat (GUI.time_step gui)))
    by lia.
  rewrite !length_app, H1, H2, H3, H4, E. cbn [length].
  repeat split; try lia.
  rewrite seq_S, map_app. cbn [map Nat.add]. f_equal. f_equal. lia.
Qed.

Lemma simulate_step_histories (noise : list Q) (gui : GUI.TrafficGUI) :
  histories_agree gui -> histories_agree (fst (GUI.simulate_step noise gui)).
Proof.
  intros Hh. unfold GUI.simulate_step.
  destruct (GUI.manager gui) as [m|]; [|exact Hh].
  destruct (GUI.num_lanes gui); [|exact Hh].
  destruct (GUI.base_counts gui) as [base|]; [|exact Hh].
  destruct (GUI.new_counts base noise (GUI.time_step gui)) as [v|e]; [|exact Hh].
  destruct (simulate_step v m) as [m' [r|e]]; cbn [fst].
  - now apply histories_agree_recorded.
  - exact Hh.
Qed.

Lemma execute_steps_histories (noise : list Q) (gui : GUI.TrafficGUI) :
  histories_agree gui -> histories_agree (fst (GUI.execute_steps noise gui)).
Proof.
  intros Hh. unfold GUI.execute_steps.
  destruct (GUI.num_lanes gui) as [n|]; [|exact Hh].
  destruct (GUI.time_step gui <? n)%Z; [|exact Hh].
  pose proof (simulate_step_histories noise gui Hh) as Hs.
  destruct (GUI.simulate_step noise gui) as [gui' [[]|f]]; exact Hs.
Qed.

Lemma mainloop_histories (fuel : nat) (noise_at : Z -> list Q) :
  forall gui,
    histories_agree gui -> histories_agree (fst (GUI.mainloop fuel noise_at gui)).
Proof.
  induction fuel as [|k IH]; intros gui Hh; cbn [GUI.mainloop].
  - exact Hh.
  - pose proof (execute_steps_histories (noise_at (GUI.time_step gui)) gui Hh) as He.
    destruct (GUI.execute_steps (noise_at (GUI.time_step gui)) gui)
      as [gui' [[|]|f]]; cbn [fst] in *; auto.
Qed.

(** X14. The histories of the window never get out of step: from the
    window as it is created, through every call of [start_simulation],
    [simulate_step] and [execute_steps] with whatever entry and draws, and
    whether the call returns or fails, each of the three recorded histories
    has exactly [time_step] entries and the recorded step numbers are
    [1, 2, ..., time_step].  In particular [start_simulation] resets neither
    the counter nor the histories. *)
Theorem histories_agree_invariant :
  histories_agree GUI.initial /\
  (forall gui, histories_agree gui ->
     (forall entry draw,
         histories_agree (fst (GUI.start_simulation entry draw gui))) /\
     (forall noise, histories_agree (fst (GUI.simulate_step noise gui))) /\
     (forall noise, histories_agree (fst (GUI.execute_steps noise gui))) /\
     (forall fuel noise_at,
         histories_agree (fst (GUI.mainloop fuel noise_at gui)))).
Proof.
  split.
  - unfold histories_agree. cbn. repeat split; lia.
  - intros gui Hh. split; [|split; [|split]].
    + intros entry draw. unfold GUI.start_simulation.
      destruct entry as [n|]; [|exact Hh].
      destruct (n <=? 0)%Z; [exact Hh|].
      destruct (init n 10 120) as [m|[]]; exact Hh.
    + intros noise. now apply simulate_step_histories.
    + intros noise. now apply execute_steps_histories.
    + intros fuel noise_at. now apply mainloop_histories.
Qed.

Lemma histories_agree_invariant_witness :
  histories_agree (fst (GUI.mainloop 5 (fun _ => [1; -2]) gui_small)).
Proof.
  destruct histories_agree_invariant as [Hinit Hkeep].
  destruct (Hkeep GUI.initial Hinit) as (Hstart & _).
  specialize (Hstart (Some 2%Z) [12; 20]).
  destruct (Hkeep _ Hstart) as (_ & _ & _ & Hloop).
  exact (Hloop 5%nat (fun _ => [1; -2])).
Defined.

Lemma clip_nonneg_identity (l : list Q) :
  Forall (fun x => 0 <= x) l -> np_clip_min l 0 = l.
Proof.
  unfold np_clip_min. induction 1 as [|x l Hx _ IH]; cbn [map].
  - reflexivity.
  - apply Qle_bool_iff in Hx. now rewrite Hx, IH.
Qed.

Lemma new_counts_ok (n t : Z) (base noise : list Q) :
  randint_draw 10 25 n base -> randint_draw (-5) 6 n noise -> (0 <= t)%Z ->
  GUI.new_counts base noise t =
    Ok (np_add_scalar (map (fun ab => fst ab + snd ab) (combine base noise))
                      (inject_Z ((t / 5) * 2))) /\
  length (np_add_scalar (map (fun ab => fst ab + snd ab) (combine base noise))
                        (inject_Z ((t / 5) * 2))) = Z.to_nat n /\
  Forall (fun x => 5 <= x)
    (np_add_scalar (map (fun ab => fst ab + snd ab) (combine base noise))
                   (inject_Z ((t / 5) * 2))).
Proof.
  intros [Hlb Hb] [Hln Hnz] Ht.
  assert (Hbound : Forall (fun x => 5 <= x)
            (np_add_scalar (map (fun ab => fst ab + snd ab) (combine base noise))
                           (inject_Z ((t / 5) * 2)))).
  { unfold np_add_scalar. apply Forall_forall. intros x Hx.
    apply in_map_iff in Hx. destruct Hx as (s & <- & Hs).
    apply in_map_iff in Hs. destruct Hs as ([b z] & <- & Hbz).
    rewrite Forall_forall in Hb, Hnz.
    destruct (Hb b (in_combine_l _ _ _ _ Hbz)) as (k1 & -> & Hk1).
    destruct (Hnz z (in_combine_r _ _ _ _ Hbz)) as (k2 & -> & Hk2).
    cbn [fst snd]. rewrite <- !inject_Z_plus.
    change 5 with (inject_Z 5). rewrite <- Zle_Qle.
    assert (0 <= t / 5)%Z by (apply Z.div_pos; lia). lia. }
  split; [|split; [|exact Hbound]].
  - unfold GUI.new_counts, np_add. rewrite Hlb, Hln, Nat.eqb_refl.
    rewrite clip_nonneg_identity; [reflexivity|].
    eapply Forall_impl; [|exact Hbound]. cbv beta. intros x Hx. lra.
  - unfold np_add_scalar. rewrite !length_map, length_combine, Hlb, Hln. lia.
Qed.

(** One step of the driver on a started window. *)
Lemma gui_step (n : Z) (noise : list Q) (gui : GUI.TrafficGUI) :
  running n gui -> randint_draw (-5) 6 n noise ->
  exists m base m' r,
    GUI.manager gui = Some m /\ GUI.base_counts gui = Some base /\
    GUI.simulate_step noise gui = (GUI.recorded m' r gui, GUI.Returned tt) /\
    simulate_step (latest_counts r) m = (m', Ok r) /\
    latest_counts r =
      np_add_scalar (map (fun ab => fst ab + snd ab) (combine base noise))
                    (inject_Z ((GUI.time_step gui / 5) * 2)) /\
    length (latest_counts r) = Z.to_nat n /\
    Forall (fun x => 5 <= x) (latest_counts r) /\
    vehicle_counts m' = tl (vehicle_counts m) ++ [latest_counts r] /\
    running n (GUI.recorded m' r gui).
Proof.
  intros (m & base & Em & En & Eb & Hw & HL & HH & Hbase & Ht) Hnoise.
  destruct (new_counts_ok n (GUI.time_step gui) base noise Hbase Hnoise Ht)
    as (Ev & Hlen & Hbound).
  set (v := np_add_scalar (map (fun ab => fst ab + snd ab) (combine base noise))
                          (inject_Z ((GUI.time_step gui / 5) * 2))) in *.
  assert (Hv : length v = lanes m) by (unfold lanes; now rewrite HL).
  pose proof (simulate_step_ok v m Hw HH Hv) as Es.
  pose proof (update_vehicle_counts_well_shaped _ _ Hw HH Hv) as Hw1.
  exists m, base. eexists. eexists.
  split; [exact Em|]. split; [exact Eb|]. split.
  - unfold GUI.simulate_step. rewrite Em, En, Eb, Ev, Es. reflexivity.
  - cbn [latest_counts]. split; [exact Es|]. split; [reflexivity|].
    split; [exact Hlen|]. split; [exact Hbound|]. split; [reflexivity|].
    eexists. exists base. cbn.
    split; [reflexivity|]. split; [exact En|]. split; [exact Eb|].
    split; [exact Hw1|]. split; [exact HL|]. split; [exact HH|].
    split; [exact Hbase|lia].
Qed.

Lemma running_enable_plot (n : Z) (gui : GUI.TrafficGUI) :
  running n gui -> running n (GUI.enable_plot gui).
Proof. intros (m & base & H). exists m, base. exact H. Qed.

Lemma mainloop_runs (n : Z) (noise_at : Z -> list Q) :
  (forall t, randint_draw (-5) 6 n (noise_at t)) ->
  forall k gui fuel,
    running n gui ->
    Z.to_nat (n - GUI.time_step gui) = k -> (k < fuel)%nat ->
    exists final added m m',
      GUI.mainloop fuel noise_at gui = (final, GUI.Returned false) /\
      running n final /\
      GUI.plot_button final = GUI.NORMAL /\
      GUI.time_step final = Z.max (GUI.time_step gui) n /\
      GUI.latest_counts_list final = GUI.latest_counts_list gui ++ added /\
      length added = k /\
      Forall (fun v => length v = Z.to_nat n /\ Forall (fun x => 5 <= x) v) added /\
      GUI.manager gui = Some m /\ GUI.manager final = Some m' /\
      vehicle_counts m' = skipn k (vehicle_counts m ++ added).
Proof.
  intros Hnoise. induction k as [|k IH]; intros gui fuel Hrun Hk Hfuel.
  - destruct fuel as [|fuel]; [lia|].
    pose proof Hrun as (m & base & Em & En & _).
    exists (GUI.enable_plot gui), [], m, m.
    cbn [GUI.mainloop]. unfold GUI.execute_steps. rewrite En.
    destruct (Z.ltb_spec (GUI.time_step gui) n); [lia|].
    split; [reflexivity|]. split; [now apply running_enable_plot|].
    split; [reflexivity|]. split; [cbn; lia|].
    split; [cbn; now rewrite app_nil_r|]. split; [reflexivity|].
    split; [constructor|]. split; [exact Em|]. split; [exact Em|].
    cbn. now rewrite app_nil_r.
  - destruct fuel as [|fuel]; [lia|].
    destruct (gui_step n (noise_at (GUI.time_step gui)) gui Hrun (Hnoise _))
      as (m & base & m1 & r & Em & Eb & Es & _ & _ & Hlen & Hbound & Hvc & Hrun1).
    pose proof Hrun as (m0 & base0 & Em0 & En & _ & Hw & _ & HH & _).
    assert (m0 = m) by congruence. subst m0.
    destruct (IH (GUI.recorded m1 r gui) fuel Hrun1)
      as (final & added & m1' & m' & El & Hrunf & Hplot & Htime & Hlist & Hadd
          & Hshape & Em1 & Em' & Hbuf); [cbn; lia|lia|].
    cbn in Em1. injection Em1 as <-.
    exists final, (latest_counts r :: added), m, m'.
    cbn [GUI.mainloop]. unfold GUI.execute_steps. rewrite En.
    destruct (Z.ltb_spec (GUI.time_step gui) n); [|lia].
    rewrite Es. split; [exact El|]. split; [exact Hrunf|].
    split; [exact Hplot|]. split; [rewrite Htime; cbn; lia|].
    split; [rewrite Hlist; cbn; now rewrite <- app_assoc|].
    split; [cbn; now rewrite Hadd|].
    split; [constructor; [split; assumption|exact Hshape]|].
    split; [exact Em|]. split; [exact Em'|].
    rewrite Hbuf, Hvc.
    destruct (well_shaped_rows m Hw HH) as [Hne _].
    destruct (vehicle_counts m) as [|r0 t0]; [contradiction|].
    cbn [tl app skipn]. now rewrite <- app_assoc.
Qed.

Lemma start_simulation_started (n : Z) (draw : list Q) :
  (0 < n)%Z ->
  exists m,
    init n 10 120 = Ok m /\
    GUI.start_simulation (Some n) draw GUI.initial
      = (GUI.started m n draw GUI.initial, GUI.Returned tt).
Proof.
  intros Hn. eexists. split; [apply init_ok; lia|].
  unfold GUI.start_simulation.
  destruct (Z.leb_spec n 0); [lia|]. now rewrite init_ok by lia.
Qed.

Lemma init_default_buffer (n : Z) (m : SmartTrafficManager) :
  (0 < n)%Z -> init n 10 120 = Ok m ->
  vehicle_counts m = repeat (repeat 0 (Z.to_nat n)) 10.
Proof.
  intros Hn E. rewrite init_ok in E by lia. injection E as <-. reflexivity.
Qed.

Lemma gui_small_running : running 2 gui_small.
Proof.
  destruct (init 2 10 120) as [m|e] eqn:Em; [|discriminate Em].
  assert (E : gui_small = GUI.started m 2 [12; 20] GUI.initial).
  { unfold gui_small, GUI.start_simulation. cbn [Z.leb Z.compare].
    now rewrite Em. }
  rewrite E. apply started_running; [lia|exact Em| |cbn; lia].
  split; [reflexivity|].
  constructor; [exists 12%Z; split; [reflexivity|lia]|].
  constructor; [exists 20%Z; split; [reflexivity|lia]|constructor].
Defined.

Lemma small_noise (t : Z) : randint_draw (-5) 6 2 [1; -2].
Proof.
  split; [reflexivity|].
  constructor; [exists 1%Z; split; [reflexivity|lia]|].
  constructor; [exists (-2)%Z; split; [reflexivity|lia]|constructor].
Defined.

(** X15. On a started window a step of the driver never fails.  The vector
    it hands to the manager is [base_counts + noise + trend] with
    [trend = (time_step // 5) * 2]; it has one entry per lane and every entry
    is at least 5, so the clipping at zero changes nothing; the step of the
    manager returns, its result is appended to the histories, the counter
    advances by one, and the window is again a started window. *)
Theorem driver_step_never_fails
  (n : Z) (noise : list Q) (gui : GUI.TrafficGUI) :
  running n gui -> randint_draw (-5) 6 n noise ->
  exists m base m' r,
    GUI.manager gui = Some m /\ GUI.base_counts gui = Some base /\
    GUI.simulate_step noise gui = (GUI.recorded m' r gui, GUI.Returned tt) /\
    simulate_step (latest_counts r) m = (m', Ok r) /\
    latest_counts r =
      np_add_scalar (map (fun ab => fst ab + snd ab) (combine base noise))
                    (inject_Z ((GUI.time_step gui / 5) * 2)) /\
    length (latest_counts r) = Z.to_nat n /\
    Forall (fun x => 5 <= x) (latest_counts r) /\
    GUI.time_step (GUI.recorded m' r gui) = (GUI.time_step gui + 1)%Z /\
    running n (GUI.recorded m' r gui).
Proof.
  intros Hrun Hnoise.
  destruct (gui_step n noise gui Hrun Hnoise)
    as (m & base & m' & r & Em & Eb & Es & Er & Hv & Hlen & Hbound & _ & Hrun').
  exists m, base, m', r. repeat split; assumption.
Qed.

Lemma driver_step_never_fails_witness :
  exists m base m' r,
    GUI.manager gui_small = Some m /\ GUI.base_counts gui_small = Some base /\
    GUI.simulate_step [1; -2] gui_small
      = (GUI.recorded m' r gui_small, GUI.Returned tt) /\
    simulate_step (latest_counts r) m = (m', Ok r) /\
    latest_counts r =
      np_add_scalar (map (fun ab => fst ab + snd ab) (combine base [1; -2]))
                    (inject_Z ((GUI.time_step gui_small / 5) * 2)) /\
    length (latest_counts r) = Z.to_nat 2 /\
    Forall (fun x => 5 <= x) (latest_counts r) /\
    GUI.time_step (GUI.recorded m' r gui_small) = (GUI.time_step gui_small + 1)%Z /\
    running 2 (GUI.recorded m' r gui_small).
Proof.
  apply (driver_step_never_fails 2 [1; -2] gui_small).
  - exact gui_small_running.
  - exact (small_noise 0).
Defined.

(** X16. [execute_steps] runs until the step counter reaches the number of
    lanes, not for a number of steps of its own: on a started window with
    counter [t] and [n] lanes, the chain of calls [root.after] makes takes
    exactly [max (n - t) 0] steps, records that many results, stops with the
    counter at [max t n] and enables the chart button.  When the counter has
    already reached [n], as after an earlier run, since [start_simulation]
    does not reset it, no step is taken at all. *)
Theorem execute_steps_runs_to_lane_count
  (n : Z) (noise_at : Z -> list Q) (gui : GUI.TrafficGUI) (fuel : nat) :
  running n gui ->
  (forall t, randint_draw (-5) 6 n (noise_at t)) ->
  (Z.to_nat (n - GUI.time_step gui) < fuel)%nat ->
  exists final added,
    GUI.mainloop fuel noise_at gui = (final, GUI.Returned false) /\
    GUI.plot_button final = GUI.NORMAL /\
    GUI.time_step final = Z.max (GUI.time_step gui) n /\
    GUI.latest_counts_list final = GUI.latest_counts_list gui ++ added /\
    length added = Z.to_nat (n - GUI.time_step gui) /\
    Forall (fun v => length v = Z.to_nat n /\ Forall (fun x => 5 <= x) v) added /\
    running n final /\
    ((n <= GUI.time_step gui)%Z -> final = GUI.enable_plot gui).
Proof.
  intros Hrun Hnoise Hfuel.
  destruct (mainloop_runs n noise_at Hnoise _ gui fuel Hrun eq_refl Hfuel)
    as (final & added & m & m' & El & Hrunf & Hplot & Htime & Hlist & Hadd
        & Hshape & _).
  exists final, added. repeat split; try assumption.
  intros Hdone. destruct fuel as [|fuel]; [lia|].
  pose proof Hrun as (m0 & base0 & _ & En & _).
  cbn [GUI.mainloop] in El. unfold GUI.execute_steps in El. rewrite En in El.
  destruct (Z.ltb_spec (GUI.time_step gui) n); [lia|].
  now injection El as <-.
Qed.

Lemma execute_steps_runs_to_lane_count_witness :
  exists final added,
    GUI.mainloop 5 (fun _ => [1; -2]) gui_small = (final, GUI.Returned false) /\
    GUI.plot_button final = GUI.NORMAL /\
    GUI.time_step final = Z.max (GUI.time_step gui_small) 2 /\
    GUI.latest_counts_list final = GUI.latest_counts_list gui_small ++ added /\
    length added = Z.to_nat (2 - GUI.time_step gui_small) /\
    Forall (fun v => length v = Z.to_nat 2 /\ Forall (fun x => 5 <= x) v) added /\
    running 2 final /\
    ((2 <= GUI.time_step gui_small)%Z -> final = GUI.enable_plot gui_small).
Proof.
  apply (execute_steps_runs_to_lane_count 2 (fun _ => [1; -2]) gui_small 5).
  - exact gui_small_running.
  - exact small_noise.
  - cbn; lia.
Defined.

(** X17. With fewer than ten lanes the window of the manager is never
    filled.  From a new window, [start_simulation] with [n] lanes followed by
    the run of [execute_steps] takes [n] steps; the buffer of the manager is
    then the last ten rows of ten zero rows followed by the [n] recorded
    inputs, so that for [n < 10] its first [10 - n] rows are still the zeros
    of the constructor. *)
Theorem first_run_leaves_zero_rows
  (n : Z) (draw : list Q) (noise_at : Z -> list Q) (fuel : nat) :
  (0 < n)%Z ->
  randint_draw 10 25 n draw ->
  (forall t, randint_draw (-5) 6 n (noise_at t)) ->
  (Z.to_nat n < fuel)%nat ->
  exists final m,
    GUI.mainloop fuel noise_at
      (fst (GUI.start_simulation (Some n) draw GUI.initial))
      = (final, GUI.Returned false) /\
    GUI.manager final = Some m /\
    GUI.time_step final = n /\
    length (GUI.latest_counts_list final) = Z.to_nat n /\
    vehicle_counts m =
      skipn (Z.to_nat n)
            (repeat (repeat 0 (Z.to_nat n)) 10 ++ GUI.latest_counts_list final) /\
    ((n < 10)%Z ->
     vehicle_counts m =
       repeat (repeat 0 (Z.to_nat n)) (10 - Z.to_nat n)
       ++ GUI.latest_counts_list final).
Proof.
  intros Hn Hdraw Hnoise Hfuel.
  destruct (start_simulation_started n draw) as (m0 & Em0 & Estart); [exact Hn|].
  rewrite Estart. cbn [fst].
  assert (Hrun : running n (GUI.started m0 n draw GUI.initial))
    by (apply started_running; [exact Hn|exact Em0|exact Hdraw|cbn; lia]).
  destruct (mainloop_runs n noise_at Hnoise _ _ fuel Hrun eq_refl)
    as (final & added & m & m' & El & _ & _ & Htime & Hlist & Hadd & _
        & Em & Em' & Hbuf).
  { cbn. rewrite Z.sub_0_r. exact Hfuel. }
  cbn [GUI.manager GUI.started] in Em. injection Em as <-.
  cbn [GUI.time_step GUI.latest_counts_list GUI.started GUI.initial app]
    in Htime, Hlist, Hadd, Hbuf.
  rewrite Z.sub_0_r in Hadd, Hbuf.
  rewrite (init_default_buffer n m0 Hn Em0) in Hbuf.
  exists final, m'. split; [exact El|]. split; [exact Em'|].
  split; [lia|]. rewrite Hlist. split; [exact Hadd|].
  split; [exact Hbuf|].
  intros Hsmall. rewrite Hbuf.
  rewrite skipn_app, repeat_length.
  replace (Z.to_nat n - 10)%nat with 0%nat by lia.
  cbn [skipn]. f_equal.
  generalize (repeat 0 (Z.to_nat n)) as row. intros row.
  assert (Hle : (Z.to_nat n <= 10)%nat) by lia.
  clear -Hle. revert Hle. generalize (Z.to_nat n) as k. intros k Hle.
  replace 10%nat with (k + (10 - k))%nat at 1 by lia.
  rewrite repeat_app, skipn_app, repeat_length, Nat.sub_diag.
  rewrite skipn_all2 by (rewrite repeat_length; lia). reflexivity.
Qed.

Lemma first_run_leaves_zero_rows_witness :
  exists final m,
    GUI.mainloop 5 (fun _ => [1; -2])
      (fst (GUI.start_simulation (Some 2%Z) [12; 20] GUI.initial))
      = (final, GUI.Returned false) /\
    GUI.manager final = Some m /\
    GUI.time_step final = 2%Z /\
    length (GUI.latest_counts_list final) = Z.to_nat 2 /\
    vehicle_counts m =
      skipn (Z.to_nat 2)
            (repeat (repeat 0 (Z.to_nat 2)) 10 ++ GUI.latest_counts_list final) /\
    ((2 < 10)%Z ->
     vehicle_counts m =
       repeat (repeat 0 (Z.to_nat 2)) (10 - Z.to_nat 2)
       ++ GUI.latest_counts_list final).
Proof.
  apply (first_run_leaves_zero_rows 2 [12; 20] (fun _ => [1; -2]) 5).
  - lia.
  - split; [reflexivity|].
    constructor; [exists 12%Z; split; [reflexivity|lia]|].
    constructor; [exists 20%Z; split; [reflexivity|lia]|constructor].
  - exact small_noise.
  - cbn; lia.
Defined.

(** X18. With a window of one row the manager predicts what it was just
    given: the design matrix is the single row [(0, 1)], which has not full
    rank, [lstsq] answers with slope zero, and after a step with the vector
    [v] the forecast of every lane is the entry of [v] for that lane, or
    zero when that entry is negative. *)
Theorem single_row_window_persistence (self : SmartTrafficManager) (v : list Q) :
  well_shaped self -> history_length self = 1%Z ->
  length v = lanes self ->
  exists self' r,
    simulate_step v self = (self', Ok r) /\
    vehicle_counts self' = [v] /\
    forall lane, (lane < lanes self)%nat ->
      nth lane (predicted_counts r) 0 == Qmax (nth lane v 0) 0.
Proof.
  intros Hw H1 Hv.
  assert (HH : (0 < history_length self)%Z) by lia.
  pose proof (update_vehicle_counts_well_shaped _ _ Hw HH Hv) as Hw1.
  assert (Htl : tl (vehicle_counts self) = []).
  { destruct Hw as (_ & _ & Hlen & _). unfold window in Hlen. rewrite H1 in Hlen.
    destruct (vehicle_counts self) as [|r0 [|r1 t]]; try discriminate Hlen.
    reflexivity. }
  eexists. eexists. split; [now apply simulate_step_ok|].
  cbn [vehicle_counts set_signal_timings set_vehicle_counts predicted_counts].
  rewrite Htl. split; [reflexivity|].
  intros lane Hlane. rewrite nth_map_seq by assumption.
  rewrite Htl in Hw1. cbn [app] in Hw1 |- *.
  set (self1 := set_vehicle_counts [v] self) in *.
  assert (Hconst : Forall (fun y => y == nth lane v 0) (lane_series self1 lane))
    by (constructor; [reflexivity|constructor]).
  destruct (lstsq_constant self1 lane (nth lane v 0) Hw1 HH Hconst)
    as (_ & Hs & Hi).
  cbv zeta in Hs, Hi.
  unfold lane_forecast. rewrite py_max_spec.
  unfold np.dot. cbn [fst snd]. rewrite Hs, Hi.
  setoid_replace (0 * inject_Z (history_length self1) + nth lane v 0 * 1)
    with (nth lane v 0) by ring.
  reflexivity.
Qed.

Lemma single_row_window_persistence_witness :
  exists self' r,
    simulate_step [7; -9]
      (set_vehicle_counts [[1; 2]]
         {| num_lanes := 2; history_length := 1; cycle_length := 120;
            vehicle_counts := []; signal_timings := [] |})
      = (self', Ok r) /\
    vehicle_counts self' = [[7; -9]] /\
    forall lane, (lane < 2)%nat ->
      nth lane (predicted_counts r) 0 == Qmax (nth lane [7; -9] 0) 0.
Proof.
  apply (single_row_window_persistence
           (set_vehicle_counts [[1; 2]]
              {| num_lanes := 2; history_length := 1; cycle_length := 120;
                 vehicle_counts := []; signal_timings := [] |})
           [7; -9]).
  - unfold well_shaped, lanes, window; cbn.
    repeat split; try lia; repeat constructor.
  - reflexivity.
  - reflexivity.
Defined.
